(** * Microsoft To Do tree data provider: a shallow embedding

    The development follows [MicrosoftToDoTreeDataProvider] (the tree data
    provider of the extension) and the script of the task details web view.

    - Graph entities are records whose optional JSON fields are [option]s;
      JavaScript strings are [string]s.
    - [async] functions are computations in [Async]: they thread the log of
      calls made to the collaborators (client factory, Graph client, event
      emitter) and end fulfilled or rejected.
    - The client factory and the remote service are an oracle record
      [ClientFactory]; nothing is assumed about what it answers. *)

From stdpp Require Import base list strings.
From Stdlib Require Import Permutation.

Local Open Scope string_scope.
Local Open Scope list_scope.

(** ** Entities (the fields of the Graph types that the code reads) *)

Record TodoTaskList := {
  list_id : option string;
  displayName : option string
}.

Record DateTimeTimeZone := {
  dateTime : option string;
  timeZone : option string
}.

Record ItemBody := {
  content : option string;
  contentType : option string
}.

Record TodoTask := {
  task_id : option string;
  title : option string;
  status : option string;
  importance : option string;
  dueDateTime : option DateTimeTimeZone;
  body : option ItemBody;
  reminderDateTime : option DateTimeTimeZone
}.

(** ** Tree nodes *)

Record ListNode := { list_entity : TodoTaskList }.

Inductive TaskStatusType := completed | inProgress.

Record TaskNode := {
  task_entity : TodoTask;
  task_parent : ListNode
}.

(** ** JavaScript values *)

(** [v === 'lit'] for an optional string field. *)
Definition strictEq (v : option string) (lit : string) : bool :=
  match v with
  | Some s => String.eqb s lit
  | None => false
  end.

(** [v || ""] for an optional string field. *)
Definition orEmpty (v : option string) : string :=
  match v with
  | Some s => s
  | None => ""
  end.

(** Truthiness of an optional string: absent and [""] are falsy. *)
Definition truthy (v : option string) : bool :=
  match v with
  | Some s => negb (String.eqb s "")
  | None => false
  end.

(** [`${v}`]: an absent field is interpolated as ["undefined"]. *)
Definition interpolate (v : option string) : string :=
  match v with
  | Some s => s
  | None => "undefined"
  end.

(** ** Calls to the collaborators *)

(** The object literal passed to [patch]. *)
Record PatchBody := {
  patch_status : option string;
  patch_importance : option string
}.

Inductive Event :=
| GetClient
| GetAll (path : string)
| Patch (path : string) (fields : PatchBody)
| Fire (node : ListNode).

(** Requests sent to the remote service. *)
Definition isGatewayCall (e : Event) : bool :=
  match e with
  | GetAll _ | Patch _ _ => true
  | GetClient | Fire _ => false
  end.

Definition Trace := list Event.

Inductive JsError :=
| TypeError (msg : string)
| RequestError (msg : string).

Inductive Outcome (A : Type) :=
| Fulfilled (a : A)
| Rejected (e : JsError).
Arguments Fulfilled {A} a.
Arguments Rejected {A} e.

(** An awaited computation: runs from the current log, settles, and leaves
    the extended log. *)
Definition Async (A : Type) : Type := Trace -> Outcome A * Trace.

#[global] Instance Async_ret : MRet Async :=
  fun A a tr => (Fulfilled a, tr).

#[global] Instance Async_bind : MBind Async :=
  fun A B k m tr =>
    match m tr with
    | (Fulfilled a, tr') => k a tr'
    | (Rejected e, tr') => (Rejected e, tr')
    end.

Definition call {A : Type} (e : Event) (answer : Outcome A) : Async A :=
  fun tr => (answer, tr ++ [e]).

(** ** The client factory *)

Record Client := { client_token : nat }.

(** What [getClient], [getAll] and [client.api(path).patch(fields)] answer.
    [getAll] is used at two entity types in the provider. *)
Record ClientFactory := {
  answer_getClient : Outcome (option Client);
  answer_getAllLists : Client -> string -> Outcome (list TodoTaskList);
  answer_getAllTasks : Client -> string -> Outcome (list TodoTask);
  answer_patch : Client -> string -> PatchBody -> Outcome unit
}.

Definition getClient (cf : ClientFactory) : Async (option Client) :=
  call GetClient (answer_getClient cf).

Definition getAllLists (cf : ClientFactory) (client : Client) (path : string)
  : Async (list TodoTaskList) :=
  call (GetAll path) (answer_getAllLists cf client path).

Definition getAllTasks (cf : ClientFactory) (client : Client) (path : string)
  : Async (list TodoTask) :=
  call (GetAll path) (answer_getAllTasks cf client path).

(** [this.didChangeTreeData.fire(node)] *)
Definition fire (node : ListNode) : Async unit :=
  call (Fire node) (Fulfilled ()).

(** ** Nodes, continued: the status node carries its deferred fetch *)

Record StatusNode := {
  statusType : TaskStatusType;
  status_getChildren : Async (list TaskNode)
}.

Inductive ToDoEntity :=
| TaskE (n : TaskNode)
| StatusE (n : StatusNode)
| ListE (n : ListNode)
| CreateListE.

Definition isCreateList (e : ToDoEntity) : bool :=
  match e with CreateListE => true | _ => false end.

(** ** getChildren *)

Definition tasksPath (element : ListNode) (getCompleted : bool) : string :=
  let comparison := if getCompleted then "eq" else "ne" in
  "/me/todo/lists/" +:+ interpolate (list_id (list_entity element))
    +:+ "/tasks?$filter= status " +:+ comparison +:+ " 'completed'".

(** The closure [getTasks] of the list branch; it captures [client] and
    [element]. *)
Definition getTasks (cf : ClientFactory) (client : Client) (element : ListNode)
    (getCompleted : bool) : Async (list TaskNode) :=
  tasks ← getAllTasks cf client (tasksPath element getCompleted);
  mret (map (fun entity => {| task_entity := entity; task_parent := element |}) tasks).

Definition getChildren (cf : ClientFactory) (element : option ToDoEntity)
  : Async (option (list ToDoEntity)) :=
  client ← getClient cf;
  match client with
  | None => mret None
  | Some client =>
    match element with
    | None =>
        taskLists ← getAllLists cf client "/me/todo/lists";
        mret (Some (map (fun entity => ListE {| list_entity := entity |}) taskLists
                     ++ [CreateListE]))
    | Some (ListE element) =>
        mret (Some [
          StatusE {| status_getChildren := getTasks cf client element false;
                     statusType := inProgress |};
          StatusE {| status_getChildren := getTasks cf client element true;
                     statusType := completed |} ])
    | Some (StatusE element) =>
        tasks ← status_getChildren element;
        mret (Some (map TaskE tasks))
    | Some (TaskE _) | Some CreateListE => mret None
    end
  end.

(** The status types of the status nodes of a result, in order. *)
Definition statusTypesOf (nodes : list ToDoEntity) : list TaskStatusType :=
  omap (fun e => match e with StatusE s => Some (statusType s) | _ => None end) nodes.

(** The requests to the remote service in a log, in order. *)
Definition gatewayCalls (tr : Trace) : list Event := List.filter isGatewayCall tr.

(** ** getTreeItem *)

(** [new Date(s).toLocaleDateString()] and [new Date(s).toLocaleString()]
    depend on the locale of the host; they are taken as given. *)
Record Locale := {
  toLocaleDateString : string -> string;
  toLocaleString : option string -> string
}.

Module TreeItemCollapsibleState.
Inductive t := None | Collapsed | Expanded.
End TreeItemCollapsibleState.

Record TreeItemLabel := {
  label : string;
  highlights : list (nat * nat)
}.

Inductive Label :=
| LabelString (s : string)
| LabelObject (l : TreeItemLabel).

Record Command := {
  command : string;
  command_title : string
}.

Record TreeItem := {
  item_label : Label;
  collapsibleState : TreeItemCollapsibleState.t;
  item_command : option Command;
  contextValue : option string;
  tooltip : option string
}.

Definition statusTypeValue (s : TaskStatusType) : string :=
  match s with
  | completed => "Completed"
  | inProgress => "In Progress"
  end.

(** The value of an optional string when it is truthy. *)
Definition whenTruthy (v : option string) : option string :=
  match v with
  | Some s => if String.eqb s "" then None else Some s
  | None => None
  end.

Definition newline : string := String (Ascii.ascii_of_nat 10) "".

Definition dueSuffix (loc : Locale) (d : string) : string :=
  " DUE " +:+ toLocaleDateString loc d +:+ " ".

(** The [label] and [highlights] of a task item. *)
Definition taskLabel (loc : Locale) (entity : TodoTask) : TreeItemLabel :=
  let label := orEmpty (title entity) in
  match whenTruthy (dueDateTime entity ≫= dateTime) with
  | Some d =>
      let dueStr := dueSuffix loc d in
      let label := label +:+ "  " in
      {| label := label +:+ dueStr;
         highlights := [(String.length label, String.length label + String.length dueStr)] |}
  | None => {| label := label; highlights := [] |}
  end.

Definition taskTooltip (entity : TodoTask) : string :=
  let tooltip := "*" +:+ orEmpty (title entity) +:+ "*" in
  match whenTruthy (body entity ≫= content) with
  | Some c => tooltip +:+ newline +:+ newline +:+ c
  | None => tooltip
  end.

Definition getTreeItem (loc : Locale) (element : ToDoEntity) : TreeItem :=
  match element with
  | CreateListE =>
      {| item_label := LabelString "Create a new list...";
         collapsibleState := TreeItemCollapsibleState.None;
         item_command := Some {| command := "microsoft-todo-unoffcial.createList";
                                 command_title := "Create a new list..." |};
         contextValue := None;
         tooltip := None |}
  | ListE element =>
      {| item_label := LabelString (orEmpty (displayName (list_entity element)));
         collapsibleState := TreeItemCollapsibleState.Collapsed;
         item_command := None;
         contextValue := Some "list";
         tooltip := None |}
  | TaskE element =>
      let status :=
        if strictEq (status (task_entity element)) "completed"
        then "completed" else "notcompleted" in
      let importance :=
        if strictEq (importance (task_entity element)) "high"
        then "starred" else "notstarred" in
      {| item_label := LabelObject (taskLabel loc (task_entity element));
         collapsibleState := TreeItemCollapsibleState.None;
         item_command := None;
         contextValue := Some ("task-" +:+ status +:+ " task-" +:+ importance);
         tooltip := Some (taskTooltip (task_entity element)) |}
  | StatusE element =>
      let collapse :=
        match statusType element with
        | completed => TreeItemCollapsibleState.Collapsed
        | inProgress => TreeItemCollapsibleState.Expanded
        end in
      let statusLabel := " " +:+ statusTypeValue (statusType element) +:+ " " in
      {| item_label := LabelObject {| highlights := [(0, String.length statusLabel)];
                                      label := statusLabel |};
         collapsibleState := collapse;
         item_command := None;
         contextValue := None;
         tooltip := None |}
  end.

Definition labelText (l : Label) : string :=
  match l with
  | LabelString s => s
  | LabelObject o => label o
  end.

Definition labelHighlights (l : Label) : list (nat * nat) :=
  match l with
  | LabelString _ => []
  | LabelObject o => highlights o
  end.

(** The characters of [s] in the span [[a, b)]. *)
Definition span (s : string) (ab : nat * nat) : string :=
  String.substring (fst ab) (snd ab - fst ab) s.

(** ** Toggle mutations *)

(** One call of an [async] arrow function: suspended at its [await] with the
    rest of its body, or settled. [reply] is what the awaited request will
    be answered. *)
Inductive Promise :=
| Awaiting (reply : Outcome unit) (resume : Async unit)
| Settled (o : Outcome unit).

(** [nodes.map(async n => ...)]: every call runs up to its first [await]
    before the next one starts. *)
Fixpoint asyncMap (f : TaskNode -> Trace -> Promise * Trace) (nodes : list TaskNode)
  : Async (list Promise) :=
  fun tr =>
    match nodes with
    | [] => (Fulfilled [], tr)
    | n :: nodes' =>
        let (p, tr1) := f n tr in
        match asyncMap f nodes' tr1 with
        | (Fulfilled ps, tr2) => (Fulfilled (p :: ps), tr2)
        | (Rejected e, tr2) => (Rejected e, tr2)
        end
    end.

(** The event loop while [Promise.all] is awaited. [rejection] is the first
    rejection seen, which is what [Promise.all] rejects with. *)
Record Loop := {
  promises : list Promise;
  log : Trace;
  rejection : option JsError
}.

Definition noteRejection (seen : option JsError) (o : Outcome unit) : option JsError :=
  match seen, o with
  | Some e, _ => Some e
  | None, Rejected e => Some e
  | None, Fulfilled _ => None
  end.

(** Rejections already there when [Promise.all] is called. *)
Definition settledRejection (ps : list Promise) : option JsError :=
  fold_left (fun seen p =>
    match p with
    | Settled o => noteRejection seen o
    | Awaiting _ _ => seen
    end) ps None.

(** The reply to the request of call [i] arrives: the call resumes after its
    [await] and runs to its end. A reply arrives once. *)
Definition deliver (st : Loop) (i : nat) : Loop :=
  match promises st !! i with
  | Some (Awaiting (Fulfilled _) resume) =>
      let (o, tr') := resume (log st) in
      {| promises := <[i := Settled o]> (promises st);
         log := tr';
         rejection := noteRejection (rejection st) o |}
  | Some (Awaiting (Rejected e) _) =>
      {| promises := <[i := Settled (Rejected e)]> (promises st);
         log := log st;
         rejection := noteRejection (rejection st) (Rejected e) |}
  | Some (Settled _) | None => st
  end.

(** [await Promise.all(promises)]. The replies arrive in the order [arrival]
    chosen by the environment (indices into the batch), and every reply
    arrives in the end: the remaining ones are delivered after [arrival].
    The result is taken when all calls have settled; a rejection does not
    stop the calls still in flight. *)
Definition promiseAll (ps : list Promise) (arrival : list nat) : Async unit :=
  fun tr =>
    let st := fold_left deliver (arrival ++ seq 0 (length ps))
                {| promises := ps; log := tr; rejection := settledRejection ps |} in
    (match rejection st with
     | Some e => Rejected e
     | None => Fulfilled ()
     end, log st).

Definition taskPath (n : TaskNode) : string :=
  "/me/todo/lists/" +:+ interpolate (list_id (list_entity (task_parent n)))
    +:+ "/tasks/" +:+ interpolate (task_id (task_entity n)).

(** [await client!.api(path).patch(fields); this.didChangeTreeData.fire(parent)]
    up to the [await]. Without a client, [client!.api] throws inside the
    async function. *)
Definition patchThenFire (cf : ClientFactory) (client : option Client)
    (path : string) (fields : PatchBody) (parent : ListNode)
  : Trace -> Promise * Trace :=
  fun tr =>
    match client with
    | Some c => (Awaiting (answer_patch cf c path fields) (fire parent),
                 tr ++ [Patch path fields])
    | None => (Settled (Rejected (TypeError "Cannot read properties of undefined")), tr)
    end.

Definition completedFields (n : TaskNode) : PatchBody :=
  {| patch_status :=
       Some (if strictEq (status (task_entity n)) "completed"
             then "notStarted" else "completed");
     patch_importance := None |}.

Definition importanceFields (n : TaskNode) : PatchBody :=
  {| patch_status := None;
     patch_importance :=
       Some (if strictEq (importance (task_entity n)) "high"
             then "normal" else "high") |}.

Definition changeCompletedState (cf : ClientFactory) (nodes : list TaskNode)
    (arrival : list nat) : Async unit :=
  client ← getClient cf;
  promises ← asyncMap (fun n => patchThenFire cf client (taskPath n) (completedFields n)
                                  (task_parent n)) nodes;
  promiseAll promises arrival.

Definition changeImportanceState (cf : ClientFactory) (nodes : list TaskNode)
    (arrival : list nat) : Async unit :=
  client ← getClient cf;
  promises ← asyncMap (fun n => patchThenFire cf client (taskPath n) (importanceFields n)
                                  (task_parent n)) nodes;
  promiseAll promises arrival.

(** The four toggle commands registered by the constructor. *)
Inductive ToggleCommand := complete | uncomplete | star | unstar.

Definition runCommand (cf : ClientFactory) (cmd : ToggleCommand)
    (node : TaskNode) (nodes : option (list TaskNode)) (arrival : list nat)
  : Async unit :=
  match cmd with
  | complete =>
      match nodes with
      | Some nodes => changeCompletedState cf nodes arrival
      | None => changeCompletedState cf [node] arrival
      end
  | uncomplete =>
      match nodes with
      | Some nodes => changeCompletedState cf nodes arrival
      | None => changeCompletedState cf [node] arrival
      end
  | star =>
      match nodes with
      | Some nodes => changeImportanceState cf nodes arrival
      | None => changeImportanceState cf [node] arrival
      end
  | unstar =>
      match nodes with
      | Some nodes => changeImportanceState cf nodes arrival
      | None => changeImportanceState cf [node] arrival
      end
  end.

(** Whether the service accepts the request that a toggle sends for [n]. *)
Definition accepted (cf : ClientFactory) (c : Client) (fields : TaskNode -> PatchBody)
    (n : TaskNode) : bool :=
  match answer_patch cf c (taskPath n) (fields n) with
  | Fulfilled _ => true
  | Rejected _ => false
  end.

(** The call made for [n] is suspended at its [await], or has settled with
    the answer of the service. *)
Definition tracks (cf : ClientFactory) (c : Client) (fields : TaskNode -> PatchBody)
    (n : TaskNode) (p : Promise) : Prop :=
  p = Awaiting (answer_patch cf c (taskPath n) (fields n)) (fire (task_parent n))
  \/ p = Settled (answer_patch cf c (taskPath n) (fields n)).

(** What a suspended call will still add to the log once its request is
    accepted. *)
Definition owedBy (p : Promise) : list Event :=
  match p with
  | Awaiting (Fulfilled _) resume => snd (resume [])
  | Awaiting (Rejected _) _ | Settled _ => []
  end.

Definition owed (ps : list Promise) : list Event := flat_map owedBy ps.

Definition isSettled (p : Promise) : bool :=
  match p with
  | Settled _ => true
  | Awaiting _ _ => false
  end.

Definition isFire (e : Event) : bool :=
  match e with
  | Fire _ => true
  | _ => false
  end.

Definition patchRequest (fields : TaskNode -> PatchBody) (n : TaskNode) : Event :=
  Patch (taskPath n) (fields n).

(** A call that has not been rejected (so far). *)
Definition notRejected (p : Promise) : Prop :=
  forall e, p <> Settled (Rejected e).

(** ** The remote service *)

(** Modelled from the spec: the remote service is not part of the sources;
    its [patch] is a partial update that overwrites the fields named in the
    request and leaves the others. *)
Definition applyPatch (fields : PatchBody) (t : TodoTask) : TodoTask :=
  {| task_id := task_id t;
     title := title t;
     status := match patch_status fields with Some s => Some s | None => status t end;
     importance :=
       match patch_importance fields with Some s => Some s | None => importance t end;
     dueDateTime := dueDateTime t;
     body := body t;
     reminderDateTime := reminderDateTime t |}.

(** The fields of the [patch] requests of a log that are addressed to
    [path] and that the service accepted. *)
Definition acceptedPatches (cf : ClientFactory) (c : Client) (path : string)
    (tr : Trace) : list PatchBody :=
  omap (fun e =>
    match e with
    | Patch p fields =>
        if String.eqb p path
        then match answer_patch cf c p fields with
             | Fulfilled _ => Some fields
             | Rejected _ => None
             end
        else None
    | _ => None
    end) tr.

(** A fresh fetch of the task of [n] once the service has handled the
    requests of [tr]. *)
Definition freshSnapshot (cf : ClientFactory) (c : Client) (n : TaskNode)
    (tr : Trace) : TaskNode :=
  {| task_entity :=
       fold_left (fun t fields => applyPatch fields t)
         (acceptedPatches cf c (taskPath n) tr) (task_entity n);
     task_parent := task_parent n |}.

(** Toggle completion, fetch the task again, toggle it again and fetch. *)
Definition toggleCompletionTwice (cf : ClientFactory) (c : Client) (n : TaskNode)
    (arrival1 arrival2 : list nat) : TaskNode :=
  let n1 := freshSnapshot cf c n (snd (changeCompletedState cf [n] arrival1 [])) in
  freshSnapshot cf c n1 (snd (changeCompletedState cf [n1] arrival2 [])).

(** The invalidations that a toggle over [nodes] owes: one per accepted
    request, for the parent list of its task. *)
Definition invalidations (cf : ClientFactory) (c : Client)
    (fields : TaskNode -> PatchBody) (nodes : list TaskNode) : list Event :=
  map (fun n => Fire (task_parent n)) (List.filter (accepted cf c fields) nodes).

(** ** The task details web view (main.js) *)

(** The variables and DOM properties that [changeTaskNode] writes. The
    [value] of an input holds what was assigned to it. *)
Record Panel := {
  state : option TaskNode;
  currentNode : option TaskNode;
  title_value : option string;
  body_value : option string;
  updateButton_hidden : bool;
  cancelButton_hidden : bool;
  remindDate_hidden : bool;
  remindDate_innerHTML : string
}.

(** [changeTaskNode(taskNode)], statement by statement; reading [.content]
    of an absent [body] throws, and the statements after it do not run. *)
Definition changeTaskNode (loc : Locale) (taskNode : TaskNode) (p : Panel)
  : Outcome unit * Panel :=
  let p1 :=
    {| state := Some taskNode;
       currentNode := Some taskNode;
       title_value := title (task_entity taskNode);
       body_value := body_value p;
       updateButton_hidden := updateButton_hidden p;
       cancelButton_hidden := cancelButton_hidden p;
       remindDate_hidden := remindDate_hidden p;
       remindDate_innerHTML := remindDate_innerHTML p |} in
  match body (task_entity taskNode) with
  | None => (Rejected (TypeError "Cannot read properties of undefined (reading 'content')"), p1)
  | Some b =>
      let hidden_html :=
        match reminderDateTime (task_entity taskNode) with
        | Some r => (false, "Reminder set at " +:+ toLocaleString loc (dateTime r))
        | None => (true, remindDate_innerHTML p1)
        end in
      (Fulfilled (),
       {| state := state p1;
          currentNode := currentNode p1;
          title_value := title_value p1;
          body_value := content b;
          updateButton_hidden := true;
          cancelButton_hidden := true;
          remindDate_hidden := fst hidden_html;
          remindDate_innerHTML := snd hidden_html |})
  end.

(** ** Sample data *)

Definition sampleClient : Client := {| client_token := 1 |}.

Definition groceries : ListNode :=
  {| list_entity := {| list_id := Some "L1"; displayName := Some "Groceries" |} |}.

Definition sampleTask (id name st imp : string) : TodoTask :=
  {| task_id := Some id; title := Some name; status := Some st;
     importance := Some imp; dueDateTime := None; body := None;
     reminderDateTime := None |}.

Definition taskIn (l : ListNode) (t : TodoTask) : TaskNode :=
  {| task_entity := t; task_parent := l |}.

(** A service that is signed in, knows one list, and accepts every patch
    except those addressed to task [T2]. *)
Definition sampleFactory : ClientFactory :=
  {| answer_getClient := Fulfilled (Some sampleClient);
     answer_getAllLists := fun _ _ => Fulfilled [list_entity groceries];
     answer_getAllTasks := fun _ _ => Fulfilled [sampleTask "T1" "Milk" "notStarted" "normal"];
     answer_patch := fun _ path _ =>
       if String.eqb path "/me/todo/lists/L1/tasks/T2"
       then Rejected (RequestError "409")
       else Fulfilled () |}.

(** The same service before sign-in. *)
Definition signedOutFactory : ClientFactory :=
  {| answer_getClient := Fulfilled None;
     answer_getAllLists := answer_getAllLists sampleFactory;
     answer_getAllTasks := answer_getAllTasks sampleFactory;
     answer_patch := answer_patch sampleFactory |}.

Definition milk : TaskNode := taskIn groceries (sampleTask "T1" "Milk" "notStarted" "normal").
Definition eggs : TaskNode := taskIn groceries (sampleTask "T2" "Eggs" "completed" "high").
Definition bread : TaskNode := taskIn groceries (sampleTask "T3" "Bread" "notStarted" "normal").

(** A task that the service reports as in progress. *)
Definition rice : TaskNode := taskIn groceries (sampleTask "T4" "Rice" "inProgress" "normal").

Definition sampleLocale : Locale :=
  {| toLocaleDateString := fun _ => "1/2/2026";
     toLocaleString := fun _ => "1/2/2026, 9:00:00 AM" |}.

Definition emptyPanel : Panel :=
  {| state := None; currentNode := None; title_value := None; body_value := None;
     updateButton_hidden := false; cancelButton_hidden := false;
     remindDate_hidden := true; remindDate_innerHTML := "" |}.

(** ** Further definitions: the toggle batch *)

(** Toggle importance, fetch the task again, toggle it again and fetch. *)
Definition toggleImportanceTwice (cf : ClientFactory) (c : Client) (n : TaskNode)
    (arrival1 arrival2 : list nat) : TaskNode :=
  let n1 := freshSnapshot cf c n (snd (changeImportanceState cf [n] arrival1 [])) in
  freshSnapshot cf c n1 (snd (changeImportanceState cf [n1] arrival2 [])).

(** The error, if any, with which the service answers the request of the
    [i]-th node of a batch. *)
Definition rejectionOf (cf : ClientFactory) (c : Client) (fields : TaskNode -> PatchBody)
    (nodes : list TaskNode) (i : nat) : option JsError :=
  match nodes !! i with
  | Some n =>
      match answer_patch cf c (taskPath n) (fields n) with
      | Rejected e => Some e
      | Fulfilled _ => None
      end
  | None => None
  end.

(** The error of the first rejected reply, in the order [arrival]. *)
Definition firstRejection (cf : ClientFactory) (c : Client)
    (fields : TaskNode -> PatchBody) (nodes : list TaskNode) (arrival : list nat)
  : option JsError :=
  head (omap (rejectionOf cf c fields nodes) arrival).

(** ** Further definitions: command registrations *)







(** ** Further definitions: the web view script (main.js) *)

(** The [body] of an [update] message. *)
Record UpdateBody := {
  update_title : option string;
  update_note : option string;
  update_id : option string;
  update_listId : option string;
  update_dueDate : string
}.

Inductive WebviewMessage :=
| ReadyMessage
| UpdateMessage (b : UpdateBody).

(** The script's variables and the DOM around [Panel]: the value of the
    due date input, whether the [onclick] handlers of the two buttons have
    been installed, and the messages posted to the extension. [state]
    holds what was handed to [setState]. *)
Record View := {
  panel : Panel;
  dueDateInput_value : string;
  updateButton_onclick : bool;
  cancelButton_onclick : bool;
  posted : list WebviewMessage
}.

Definition withPanel (p : Panel) (v : View) : View :=
  {| panel := p;
     dueDateInput_value := dueDateInput_value v;
     updateButton_onclick := updateButton_onclick v;
     cancelButton_onclick := cancelButton_onclick v;
     posted := posted v |}.

Definition postMessage (m : WebviewMessage) (v : View) : View :=
  {| panel := panel v;
     dueDateInput_value := dueDateInput_value v;
     updateButton_onclick := updateButton_onclick v;
     cancelButton_onclick := cancelButton_onclick v;
     posted := posted v ++ [m] |}.

Definition setHidden (hidden : bool) (p : Panel) : Panel :=
  {| state := state p;
     currentNode := currentNode p;
     title_value := title_value p;
     body_value := body_value p;
     updateButton_hidden := hidden;
     cancelButton_hidden := hidden;
     remindDate_hidden := remindDate_hidden p;
     remindDate_innerHTML := remindDate_innerHTML p |}.

Definition setCurrentNode (n : TaskNode) (p : Panel) : Panel :=
  {| state := state p;
     currentNode := Some n;
     title_value := title_value p;
     body_value := body_value p;
     updateButton_hidden := updateButton_hidden p;
     cancelButton_hidden := cancelButton_hidden p;
     remindDate_hidden := remindDate_hidden p;
     remindDate_innerHTML := remindDate_innerHTML p |}.

Definition setTitleValue (t : option string) (p : Panel) : Panel :=
  {| state := state p;
     currentNode := currentNode p;
     title_value := t;
     body_value := body_value p;
     updateButton_hidden := updateButton_hidden p;
     cancelButton_hidden := cancelButton_hidden p;
     remindDate_hidden := remindDate_hidden p;
     remindDate_innerHTML := remindDate_innerHTML p |}.

Definition setBodyValue (b : option string) (p : Panel) : Panel :=
  {| state := state p;
     currentNode := currentNode p;
     title_value := title_value p;
     body_value := b;
     updateButton_hidden := updateButton_hidden p;
     cancelButton_hidden := cancelButton_hidden p;
     remindDate_hidden := remindDate_hidden p;
     remindDate_innerHTML := remindDate_innerHTML p |}.

(** [entity.title = t] and [entity.body.content = c] on a node. *)
Definition withTitle (t : option string) (n : TaskNode) : TaskNode :=
  {| task_entity :=
       {| task_id := task_id (task_entity n);
          title := t;
          status := status (task_entity n);
          importance := importance (task_entity n);
          dueDateTime := dueDateTime (task_entity n);
          body := body (task_entity n);
          reminderDateTime := reminderDateTime (task_entity n) |};
     task_parent := task_parent n |}.

Definition withBodyContent (b : ItemBody) (c : option string) (n : TaskNode) : TaskNode :=
  {| task_entity :=
       {| task_id := task_id (task_entity n);
          title := title (task_entity n);
          status := status (task_entity n);
          importance := importance (task_entity n);
          dueDateTime := dueDateTime (task_entity n);
          body := Some {| content := c; contentType := contentType b |};
          reminderDateTime := reminderDateTime (task_entity n) |};
     task_parent := task_parent n |}.

(** The listener of [message] events: [changeTaskNode(event.data)]. *)
Definition onMessage (loc : Locale) (taskNode : TaskNode) (v : View)
  : Outcome unit * View :=
  let (o, p) := changeTaskNode loc taskNode (panel v) in
  (o, withPanel p v).

(** [onkeydown]: while the update button is hidden, show both buttons and
    install their handlers. *)
Definition onkeydown (v : View) : View :=
  if updateButton_hidden (panel v)
  then {| panel := setHidden false (panel v);
          dueDateInput_value := dueDateInput_value v;
          updateButton_onclick := true;
          cancelButton_onclick := true;
          posted := posted v |}
  else v.

(** The user changes the text of an input (its [value] only). *)
Definition inputTitle (s : string) (v : View) : View :=
  withPanel (setTitleValue (Some s) (panel v)) v.

Definition inputBody (s : string) (v : View) : View :=
  withPanel (setBodyValue (Some s) (panel v)) v.

(** The user picks a date: the value changes and [onchange] runs
    [onkeydown]. *)
Definition changeDueDate (s : string) (v : View) : View :=
  onkeydown {| panel := panel v;
               dueDateInput_value := s;
               updateButton_onclick := updateButton_onclick v;
               cancelButton_onclick := cancelButton_onclick v;
               posted := posted v |}.

(** A click on the update button; without a handler nothing runs. *)
Definition clickUpdate (v : View) : Outcome unit * View :=
  if updateButton_onclick v then
    let p1 := setHidden true (panel v) in
    match currentNode p1 with
    | None =>
        (Rejected (TypeError "Cannot read properties of undefined (reading 'entity')"),
         withPanel p1 v)
    | Some cur =>
        let message :=
          UpdateMessage {| update_title := title_value p1;
                           update_note := body_value p1;
                           update_id := task_id (task_entity cur);
                           update_listId := list_id (list_entity (task_parent cur));
                           update_dueDate := dueDateInput_value v |} in
        let cur1 := withTitle (title_value p1) cur in
        match body (task_entity cur) with
        | None =>
            (Rejected (TypeError "Cannot set properties of undefined (setting 'content')"),
             postMessage message (withPanel (setCurrentNode cur1 p1) v))
        | Some b =>
            (Fulfilled (),
             postMessage message
               (withPanel (setCurrentNode (withBodyContent b (body_value p1) cur1) p1) v))
        end
    end
  else (Fulfilled (), v).

(** A click on the cancel button. *)
Definition clickCancel (v : View) : Outcome unit * View :=
  if cancelButton_onclick v then
    let p1 := setHidden true (panel v) in
    match currentNode p1 with
    | None =>
        (Rejected (TypeError "Cannot read properties of undefined (reading 'entity')"),
         withPanel p1 v)
    | Some cur =>
        let p2 := setTitleValue (title (task_entity cur)) p1 in
        match body (task_entity cur) with
        | None =>
            (Rejected (TypeError "Cannot read properties of undefined (reading 'content')"),
             withPanel p2 v)
        | Some b => (Fulfilled (), withPanel (setBodyValue (content b) p2) v)
        end
    end
  else (Fulfilled (), v).

(** The end of the script: restore the saved state, if any, then post
    [ready]. [getState()] is the [state] of the panel. *)
Definition startup (loc : Locale) (v : View) : Outcome unit * View :=
  match state (panel v) with
  | Some initialState =>
      match onMessage loc initialState v with
      | (Fulfilled _, v1) => (Fulfilled (), postMessage ReadyMessage v1)
      | (Rejected e, v1) => (Rejected e, v1)
      end
  | None => (Fulfilled (), postMessage ReadyMessage v)
  end.

Definition emptyView : View :=
  {| panel := emptyPanel;
     dueDateInput_value := "";
     updateButton_onclick := false;
     cancelButton_onclick := false;
     posted := [] |}.

(** Two tasks with a note; [tea] also has a reminder and a due date. *)
Definition tea : TaskNode :=
  taskIn groceries
    {| task_id := Some "T5"; title := Some "Tea"; status := Some "notStarted";
       importance := Some "low";
       dueDateTime := Some {| dateTime := Some "2026-01-02T00:00:00.0000000";
                              timeZone := Some "UTC" |};
       body := Some {| content := Some "green"; contentType := Some "text" |};
       reminderDateTime := Some {| dateTime := Some "2026-01-01T09:00:00.0000000";
                                   timeZone := Some "UTC" |} |}.

Definition salt : TaskNode :=
  taskIn groceries
    {| task_id := Some "T6"; title := Some "Salt"; status := Some "notStarted";
       importance := Some "normal"; dueDateTime := None;
       body := Some {| content := Some "coarse"; contentType := Some "text" |};
       reminderDateTime := None |}.

(** A service whose client factory fails. *)
Definition brokenFactory : ClientFactory :=
  {| answer_getClient := Rejected (RequestError "network");
     answer_getAllLists := fun _ _ => Rejected (RequestError "network");
     answer_getAllTasks := fun _ _ => Rejected (RequestError "network");
     answer_patch := fun _ _ _ => Rejected (RequestError "network") |}.

(** A signed-in service whose fetches fail. *)
Definition offlineFactory : ClientFactory :=
  {| answer_getClient := Fulfilled (Some sampleClient);
     answer_getAllLists := fun _ _ => Rejected (RequestError "503");
     answer_getAllTasks := fun _ _ => Rejected (RequestError "503");
     answer_patch := fun _ _ _ => Rejected (RequestError "503") |}.

(** * Properties *)

(** ** Expansion *)

Lemma getChildren_unfold_client cf c element tr :
  answer_getClient cf = Fulfilled (Some c) ->
  getChildren cf element tr =
    match element with
    | None =>
        (taskLists ← getAllLists cf c "/me/todo/lists";
         mret (Some (map (fun entity => ListE {| list_entity := entity |}) taskLists
                      ++ [CreateListE]))) (tr ++ [GetClient])
    | Some (ListE element) =>
        (Fulfilled (Some [
           StatusE {| status_getChildren := getTasks cf c element false;
                      statusType := inProgress |};
           StatusE {| status_getChildren := getTasks cf c element true;
                      statusType := completed |} ]), tr ++ [GetClient])
    | Some (StatusE element) =>
        (tasks ← status_getChildren element; mret (Some (map TaskE tasks)))
          (tr ++ [GetClient])
    | Some (TaskE _) | Some CreateListE => (Fulfilled None, tr ++ [GetClient])
    end.
Proof.
  intros Hc. unfold getChildren, mbind, Async_bind, getClient, call. rewrite Hc.
  destruct element as [[| | |]|]; reflexivity.
Qed.

(** C1. Expanding the root when the service returns the lists [ls]: the
    result is the list nodes of [ls] in service order followed by the
    create-list node, so it has [length ls + 1] entries, the last entry is
    the create-list node and it is the only one. *)
Theorem getChildren_root_lists_then_sentinel cf c ls tr :
  answer_getClient cf = Fulfilled (Some c) ->
  answer_getAllLists cf c "/me/todo/lists" = Fulfilled ls ->
  exists nodes,
    getChildren cf None tr
      = (Fulfilled (Some nodes), tr ++ [GetClient; GetAll "/me/todo/lists"]) /\
    nodes = map (fun entity => ListE {| list_entity := entity |}) ls ++ [CreateListE] /\
    length nodes = length ls + 1 /\
    (forall i entity, ls !! i = Some entity ->
       nodes !! i = Some (ListE {| list_entity := entity |})) /\
    nodes !! length ls = Some CreateListE /\
    last nodes = Some CreateListE /\
    length (List.filter isCreateList nodes) = 1.
Proof.
  intros Hc Hl. eexists. split; [|split; [reflexivity|]].
  - rewrite (getChildren_unfold_client _ _ _ _ Hc).
    unfold mbind, Async_bind, getAllLists, call. rewrite Hl. cbn.
    rewrite <- app_assoc. reflexivity.
  - repeat split.
    + rewrite length_app, length_map. reflexivity.
    + intros i entity Hi. rewrite lookup_app_l.
      * rewrite list_lookup_fmap, Hi. reflexivity.
      * rewrite length_map. eapply lookup_lt_Some, Hi.
    + rewrite lookup_app_r; rewrite length_map; [|lia].
      rewrite Nat.sub_diag. reflexivity.
    + apply last_snoc.
    + rewrite List.filter_app. cbn. rewrite length_app. cbn.
      assert (List.filter isCreateList
                (map (fun entity => ListE {| list_entity := entity |}) ls) = []) as ->.
      { clear Hl. induction ls as [|l ls' IH]; [reflexivity | exact IH]. }
      reflexivity.
Qed.

Lemma getChildren_root_lists_then_sentinel_witness :
  answer_getClient sampleFactory = Fulfilled (Some sampleClient) /\
  answer_getAllLists sampleFactory sampleClient "/me/todo/lists"
    = Fulfilled [list_entity groceries] /\
  exists nodes,
    getChildren sampleFactory None []
      = (Fulfilled (Some nodes), [] ++ [GetClient; GetAll "/me/todo/lists"]) /\
    nodes = map (fun entity => ListE {| list_entity := entity |}) [list_entity groceries]
              ++ [CreateListE] /\
    length nodes = length [list_entity groceries] + 1 /\
    (forall i entity, [list_entity groceries] !! i = Some entity ->
       nodes !! i = Some (ListE {| list_entity := entity |})) /\
    nodes !! length [list_entity groceries] = Some CreateListE /\
    last nodes = Some CreateListE /\
    length (List.filter isCreateList nodes) = 1.
Proof.
  split; [reflexivity|]. split; [reflexivity|].
  apply (getChildren_root_lists_then_sentinel sampleFactory sampleClient
           [list_entity groceries] []); reflexivity.
Defined.

(** C4. Whatever is expanded, when [getClient] yields no client
    [getChildren] is fulfilled with an absent result: it does not reject,
    and it makes no further call. *)
Theorem getChildren_without_client_is_absent cf element tr :
  answer_getClient cf = Fulfilled None ->
  getChildren cf element tr = (Fulfilled None, tr ++ [GetClient]).
Proof.
  intros Hc. unfold getChildren, mbind, Async_bind, getClient, call.
  rewrite Hc. reflexivity.
Qed.

Lemma getChildren_without_client_is_absent_witness :
  answer_getClient signedOutFactory = Fulfilled None /\
  getChildren signedOutFactory (Some (ListE groceries)) []
    = (Fulfilled None, [] ++ [GetClient]).
Proof.
  split; [reflexivity|].
  apply (getChildren_without_client_is_absent signedOutFactory
           (Some (ListE groceries)) []); reflexivity.
Defined.

Lemma gatewayCalls_app tr1 tr2 :
  gatewayCalls (tr1 ++ tr2) = gatewayCalls tr1 ++ gatewayCalls tr2.
Proof. apply List.filter_app. Qed.

(** C2. With a client at hand, expanding a list node yields exactly two
    status nodes, In Progress then Completed, whose fetches are the
    closures [getTasks false] and [getTasks true]; the expansion sends no
    request to the service (the log gains only the [getClient] call), and a
    second expansion of the same list yields the same nodes in the same
    order. *)
Theorem getChildren_list_two_status_groups cf c element tr :
  answer_getClient cf = Fulfilled (Some c) ->
  exists inP comp tr1,
    getChildren cf (Some (ListE element)) tr
      = (Fulfilled (Some [StatusE inP; StatusE comp]), tr1) /\
    statusType inP = inProgress /\
    statusType comp = completed /\
    statusTypesOf [StatusE inP; StatusE comp] = [inProgress; completed] /\
    status_getChildren inP = getTasks cf c element false /\
    status_getChildren comp = getTasks cf c element true /\
    tr1 = tr ++ [GetClient] /\
    gatewayCalls tr1 = gatewayCalls tr /\
    exists tr2,
      getChildren cf (Some (ListE element)) tr1
        = (Fulfilled (Some [StatusE inP; StatusE comp]), tr2) /\
      gatewayCalls tr2 = gatewayCalls tr.
Proof.
  intros Hc. do 3 eexists.
  split; [rewrite (getChildren_unfold_client _ _ _ _ Hc); reflexivity|].
  cbn [statusType status_getChildren]. repeat split.
  - rewrite gatewayCalls_app. cbn. apply app_nil_r.
  - eexists. split; [rewrite (getChildren_unfold_client _ _ _ _ Hc); reflexivity|].
    rewrite !gatewayCalls_app. cbn. rewrite !app_nil_r. reflexivity.
Qed.

Lemma getChildren_list_two_status_groups_witness :
  answer_getClient sampleFactory = Fulfilled (Some sampleClient) /\
  exists inP comp tr1,
    getChildren sampleFactory (Some (ListE groceries)) []
      = (Fulfilled (Some [StatusE inP; StatusE comp]), tr1) /\
    statusType inP = inProgress /\
    statusType comp = completed /\
    statusTypesOf [StatusE inP; StatusE comp] = [inProgress; completed] /\
    status_getChildren inP = getTasks sampleFactory sampleClient groceries false /\
    status_getChildren comp = getTasks sampleFactory sampleClient groceries true /\
    tr1 = [] ++ [GetClient] /\
    gatewayCalls tr1 = gatewayCalls [] /\
    exists tr2,
      getChildren sampleFactory (Some (ListE groceries)) tr1
        = (Fulfilled (Some [StatusE inP; StatusE comp]), tr2) /\
      gatewayCalls tr2 = gatewayCalls [].
Proof.
  split; [reflexivity|].
  apply (getChildren_list_two_status_groups sampleFactory sampleClient groceries []).
  reflexivity.
Defined.

Lemma getTasks_run cf c element getCompleted tr :
  getTasks cf c element getCompleted tr =
    (match answer_getAllTasks cf c (tasksPath element getCompleted) with
     | Fulfilled tasks =>
         Fulfilled (map (fun entity => {| task_entity := entity; task_parent := element |})
                        tasks)
     | Rejected e => Rejected e
     end, tr ++ [GetAll (tasksPath element getCompleted)]).
Proof.
  unfold getTasks, mbind, Async_bind, getAllTasks, call.
  destruct (answer_getAllTasks cf c (tasksPath element getCompleted)); reflexivity.
Qed.

(** C3. Let [inP] and [comp] be the In Progress and Completed nodes that
    expanding the list [element] produces. Expanding [inP] sends the service
    one request, for the tasks of the list with id [list_id] filtered by
    [status ne 'completed']; expanding [comp] sends one request, filtered by
    [status eq 'completed']. This holds of the deferred fetch itself and of
    [getChildren] on the node, from any log, and the tasks returned carry
    [element] as parent. *)
Theorem status_group_fetch_filters_by_completed cf c element tr0 tr :
  answer_getClient cf = Fulfilled (Some c) ->
  let listId := interpolate (list_id (list_entity element)) in
  let nePath := "/me/todo/lists/" +:+ listId +:+ "/tasks?$filter= status ne 'completed'" in
  let eqPath := "/me/todo/lists/" +:+ listId +:+ "/tasks?$filter= status eq 'completed'" in
  exists inP comp,
    fst (getChildren cf (Some (ListE element)) tr0)
      = Fulfilled (Some [StatusE inP; StatusE comp]) /\
    statusType inP = inProgress /\
    statusType comp = completed /\
    snd (status_getChildren inP tr) = tr ++ [GetAll nePath] /\
    snd (status_getChildren comp tr) = tr ++ [GetAll eqPath] /\
    gatewayCalls (snd (getChildren cf (Some (StatusE inP)) tr))
      = gatewayCalls tr ++ [GetAll nePath] /\
    gatewayCalls (snd (getChildren cf (Some (StatusE comp)) tr))
      = gatewayCalls tr ++ [GetAll eqPath] /\
    (forall tasks, answer_getAllTasks cf c nePath = Fulfilled tasks ->
       fst (getChildren cf (Some (StatusE inP)) tr)
         = Fulfilled (Some (map (fun entity =>
             TaskE {| task_entity := entity; task_parent := element |}) tasks))) /\
    (forall tasks, answer_getAllTasks cf c eqPath = Fulfilled tasks ->
       fst (getChildren cf (Some (StatusE comp)) tr)
         = Fulfilled (Some (map (fun entity =>
             TaskE {| task_entity := entity; task_parent := element |}) tasks))).
Proof.
  intros Hc listId nePath eqPath. do 2 eexists.
  split; [rewrite (getChildren_unfold_client _ _ _ _ Hc); reflexivity|].
  assert (forall b : bool, getChildren cf (Some (StatusE
            {| statusType := (if b then completed else inProgress);
               status_getChildren := getTasks cf c element b |})) tr
          = (match answer_getAllTasks cf c (tasksPath element b) with
             | Fulfilled tasks =>
                 Fulfilled (Some (map TaskE (map (fun entity =>
                   {| task_entity := entity; task_parent := element |}) tasks)))
             | Rejected e => Rejected e
             end, tr ++ [GetClient; GetAll (tasksPath element b)])) as Hrun.
  { intros b. rewrite (getChildren_unfold_client _ _ _ _ Hc).
    unfold mbind, Async_bind. cbn [status_getChildren]. rewrite getTasks_run.
    rewrite <- app_assoc.
    destruct (answer_getAllTasks cf c (tasksPath element b)); reflexivity. }
  cbn [statusType status_getChildren].
  split; [reflexivity|]. split; [reflexivity|].
  split; [rewrite getTasks_run; reflexivity|].
  split; [rewrite getTasks_run; reflexivity|].
  split; [rewrite (Hrun false); cbn [snd]; rewrite gatewayCalls_app; reflexivity|].
  split; [rewrite (Hrun true); cbn [snd]; rewrite gatewayCalls_app; reflexivity|].
  split; intros tasks Ht.
  - rewrite (Hrun false). change (tasksPath element false) with nePath.
    rewrite Ht. cbn [fst]. rewrite map_map. reflexivity.
  - rewrite (Hrun true). change (tasksPath element true) with eqPath.
    rewrite Ht. cbn [fst]. rewrite map_map. reflexivity.
Qed.

Lemma status_group_fetch_filters_by_completed_witness :
  answer_getClient sampleFactory = Fulfilled (Some sampleClient) /\
  exists inP comp,
    fst (getChildren sampleFactory (Some (ListE groceries)) [])
      = Fulfilled (Some [StatusE inP; StatusE comp]) /\
    statusType inP = inProgress /\
    statusType comp = completed /\
    snd (status_getChildren inP [])
      = [GetAll "/me/todo/lists/L1/tasks?$filter= status ne 'completed'"] /\
    snd (status_getChildren comp [])
      = [GetAll "/me/todo/lists/L1/tasks?$filter= status eq 'completed'"] /\
    gatewayCalls (snd (getChildren sampleFactory (Some (StatusE inP)) []))
      = [GetAll "/me/todo/lists/L1/tasks?$filter= status ne 'completed'"] /\
    gatewayCalls (snd (getChildren sampleFactory (Some (StatusE comp)) []))
      = [GetAll "/me/todo/lists/L1/tasks?$filter= status eq 'completed'"].
Proof.
  split; [reflexivity|].
  destruct (status_group_fetch_filters_by_completed sampleFactory sampleClient
              groceries [] [] eq_refl)
    as (inP & comp & Hlist & HinP & Hcomp & Hne & Heq & Hgne & Hgeq & _).
  exists inP, comp. repeat split; assumption.
Defined.

(** ** The event loop of a toggle batch *)

Section EventLoop.
Variable cf : ClientFactory.
Variable c : Client.
Variable fields : TaskNode -> PatchBody.

Lemma asyncMap_launch nodes tr :
  asyncMap (fun n => patchThenFire cf (Some c) (taskPath n) (fields n) (task_parent n))
           nodes tr
  = (Fulfilled (map (fun n => Awaiting (answer_patch cf c (taskPath n) (fields n))
                                       (fire (task_parent n))) nodes),
     tr ++ map (patchRequest fields) nodes).
Proof.
  revert tr. induction nodes as [|n nodes IH]; intros tr; cbn.
  - rewrite app_nil_r. reflexivity.
  - rewrite IH, <- app_assoc. reflexivity.
Qed.

Lemma tracks_launch nodes :
  Forall2 (tracks cf c fields) nodes
    (map (fun n => Awaiting (answer_patch cf c (taskPath n) (fields n))
                            (fire (task_parent n))) nodes).
Proof.
  induction nodes; constructor; [left; reflexivity | assumption].
Qed.

Lemma owed_launch nodes :
  owed (map (fun n => Awaiting (answer_patch cf c (taskPath n) (fields n))
                               (fire (task_parent n))) nodes)
  = map (fun n => Fire (task_parent n)) (List.filter (accepted cf c fields) nodes).
Proof.
  induction nodes as [|n nodes IH]; [reflexivity|].
  cbn. unfold accepted at 1.
  destruct (answer_patch cf c (taskPath n) (fields n)); cbn; rewrite <- IH; reflexivity.
Qed.

Lemma owed_app ps qs : owed (ps ++ qs) = owed ps ++ owed qs.
Proof. apply flat_map_app. Qed.

Lemma deliver_length st i : length (promises (deliver st i)) = length (promises st).
Proof.
  unfold deliver. destruct (promises st !! i) as [[[u|e] k|o]|]; [|cbn..|reflexivity|reflexivity].
  - destruct (k (log st)). cbn. apply length_insert.
  - apply length_insert.
Qed.

(** One reply: the calls still correspond to the nodes, the log only
    grows, and what was added was owed. *)
Lemma deliver_step nodes st i :
  Forall2 (tracks cf c fields) nodes (promises st) ->
  Forall2 (tracks cf c fields) nodes (promises (deliver st i)) /\
  exists ev,
    log (deliver st i) = log st ++ ev /\
    Permutation (ev ++ owed (promises (deliver st i))) (owed (promises st)).
Proof.
  intros Htr. unfold deliver.
  destruct (promises st !! i) as [p|] eqn:Hi;
    [|split; [assumption | exists []; rewrite app_nil_r; split; reflexivity]].
  destruct (Forall2_lookup_r _ _ _ _ _ Htr Hi) as (n & Hn & Hp).
  pose proof (lookup_lt_Some _ _ _ Hi) as Hlt.
  assert (promises st = take i (promises st) ++ p :: drop (S i) (promises st)) as Hsplit
    by (symmetry; apply take_drop_middle, Hi).
  destruct p as [[u|e] k|o].
  - destruct Hp as [Hp|Hp]; [|discriminate]. injection Hp as Ha Hk. subst k.
    cbn. split.
    + rewrite <- (list_insert_id nodes i n Hn). apply Forall2_insert; [assumption|].
      right. rewrite <- Ha. destruct u. reflexivity.
    + exists [Fire (task_parent n)]. split; [reflexivity|].
      rewrite insert_take_drop by assumption.
      rewrite Hsplit at 3. rewrite !owed_app. cbn.
      apply Permutation_middle.
  - destruct Hp as [Hp|Hp]; [|discriminate]. injection Hp as Ha Hk. subst k.
    cbn. split.
    + rewrite <- (list_insert_id nodes i n Hn). apply Forall2_insert; [assumption|].
      right. rewrite <- Ha. reflexivity.
    + exists []. rewrite app_nil_r. split; [reflexivity|].
      rewrite insert_take_drop by assumption.
      rewrite Hsplit at 3. rewrite !owed_app. reflexivity.
  - split; [assumption | exists []; rewrite app_nil_r; split; reflexivity].
Qed.

Lemma deliver_all_step nodes arrival st :
  Forall2 (tracks cf c fields) nodes (promises st) ->
  Forall2 (tracks cf c fields) nodes (promises (fold_left deliver arrival st)) /\
  exists ev,
    log (fold_left deliver arrival st) = log st ++ ev /\
    Permutation (ev ++ owed (promises (fold_left deliver arrival st)))
                (owed (promises st)).
Proof.
  revert st. induction arrival as [|i arrival IH]; intros st Htr; cbn.
  - split; [assumption | exists []; rewrite app_nil_r; split; reflexivity].
  - destruct (deliver_step nodes st i Htr) as (Htr1 & ev1 & Hlog1 & Hperm1).
    destruct (IH _ Htr1) as (Htr2 & ev2 & Hlog2 & Hperm2).
    split; [assumption|]. exists (ev1 ++ ev2). split.
    + rewrite Hlog2, Hlog1, app_assoc. reflexivity.
    + rewrite <- Hperm1, <- Hperm2, !app_assoc. reflexivity.
Qed.
Lemma deliver_keeps_settled st i j o :
  promises st !! j = Some (Settled o) ->
  promises (deliver st i) !! j = Some (Settled o).
Proof.
  intros Hj. unfold deliver.
  destruct (promises st !! i) as [[[u|e] k|o']|] eqn:Hi; try assumption.
  - destruct (k (log st)). cbn.
    destruct (decide (i = j)) as [->|Hne]; [congruence|].
    rewrite list_lookup_insert_ne by assumption. assumption.
  - cbn. destruct (decide (i = j)) as [->|Hne]; [congruence|].
    rewrite list_lookup_insert_ne by assumption. assumption.
Qed.

Lemma deliver_settles st i :
  i < length (promises st) ->
  exists o, promises (deliver st i) !! i = Some (Settled o).
Proof.
  intros Hlt. unfold deliver.
  destruct (promises st !! i) as [[[u|e] k|o']|] eqn:Hi.
  - destruct (k (log st)) as [o tr']. exists o. cbn.
    apply list_lookup_insert_eq. assumption.
  - exists (Rejected e). cbn. apply list_lookup_insert_eq. assumption.
  - exists o'. assumption.
  - apply lookup_ge_None in Hi. lia.
Qed.

Lemma deliver_all_length arrival st :
  length (promises (fold_left deliver arrival st)) = length (promises st).
Proof.
  revert st. induction arrival as [|i arrival IH]; intros st; cbn; [reflexivity|].
  rewrite IH. apply deliver_length.
Qed.

Lemma deliver_all_keeps_settled arrival st j o :
  promises st !! j = Some (Settled o) ->
  promises (fold_left deliver arrival st) !! j = Some (Settled o).
Proof.
  revert st. induction arrival as [|i arrival IH]; intros st Hj; cbn; [assumption|].
  apply IH, deliver_keeps_settled, Hj.
Qed.

(** Every call whose reply is in [arrival] has settled afterwards. *)
Lemma deliver_all_settles arrival st j :
  j ∈ arrival ->
  j < length (promises st) ->
  exists o, promises (fold_left deliver arrival st) !! j = Some (Settled o).
Proof.
  revert st. induction arrival as [|i arrival IH]; intros st Hin Hlt.
  - inversion Hin.
  - cbn. apply elem_of_cons in Hin as [->|Hin].
    + destruct (deliver_settles st i Hlt) as [o Ho]. exists o.
      apply deliver_all_keeps_settled, Ho.
    + apply IH; [assumption | rewrite deliver_length; assumption].
Qed.

Lemma owed_settled ps :
  (forall j, j < length ps -> exists o, ps !! j = Some (Settled o)) ->
  owed ps = [].
Proof.
  induction ps as [|p ps IH]; intros Hall; [reflexivity|].
  destruct (Hall 0 ltac:(cbn; lia)) as [o Ho]. injection Ho as ->. cbn.
  apply IH. intros j Hj. apply (Hall (S j)). cbn. lia.
Qed.

(** When every reply has arrived, the log has gained exactly the
    invalidations of the accepted requests, in the order of arrival. *)
Lemma promiseAll_log nodes ps arrival tr :
  Forall2 (tracks cf c fields) nodes ps ->
  exists fires,
    snd (promiseAll ps arrival tr) = tr ++ fires /\
    Permutation fires (owed ps).
Proof.
  intros Htr. unfold promiseAll. cbn [snd].
  set (st0 := {| promises := ps; log := tr; rejection := settledRejection ps |}).
  destruct (deliver_all_step nodes (arrival ++ seq 0 (length ps)) st0 Htr)
    as (_ & ev & Hlog & Hperm).
  exists ev. split; [exact Hlog|].
  rewrite owed_settled in Hperm.
  - rewrite app_nil_r in Hperm. exact Hperm.
  - intros j Hj. rewrite deliver_all_length in Hj.
    apply deliver_all_settles; [|exact Hj].
    apply elem_of_app. right. apply elem_of_seq. cbn in Hj |- *. lia.
Qed.

(** The log of a toggle over [nodes]: one request per node, in the order
    of the batch and before any reply is handled, then one invalidation
    of the parent list for every accepted request. *)
Lemma toggle_log nodes arrival tr :
  exists fires,
    snd ((promises ← asyncMap (fun n => patchThenFire cf (Some c) (taskPath n) (fields n)
                                          (task_parent n)) nodes;
          promiseAll promises arrival) tr)
      = tr ++ map (patchRequest fields) nodes ++ fires /\
    Permutation fires
      (map (fun n => Fire (task_parent n)) (List.filter (accepted cf c fields) nodes)).
Proof.
  unfold mbind, Async_bind. rewrite asyncMap_launch.
  destruct (promiseAll_log nodes _ arrival (tr ++ map (patchRequest fields) nodes)
              (tracks_launch nodes)) as (fires & Hlog & Hperm).
  exists fires. split.
  - rewrite Hlog, <- app_assoc. reflexivity.
  - rewrite <- owed_launch. exact Hperm.
Qed.
Lemma settledRejection_launch nodes :
  settledRejection (map (fun n => Awaiting (answer_patch cf c (taskPath n) (fields n))
                                           (fire (task_parent n))) nodes) = None.
Proof.
  unfold settledRejection. generalize (@None JsError).
  induction nodes as [|n nodes IH]; intros seen; [reflexivity | apply IH].
Qed.

Lemma notRejected_insert ps i p p' :
  ps !! i = Some p -> notRejected p -> notRejected p' ->
  Forall notRejected (<[i := p']> ps) <-> Forall notRejected ps.
Proof.
  intros Hi Hp Hp'. pose proof (lookup_lt_Some _ _ _ Hi) as Hlt.
  rewrite insert_take_drop by assumption.
  rewrite <- (take_drop_middle ps i p Hi) at 3.
  rewrite !Forall_app, !Forall_cons. tauto.
Qed.

(** [Promise.all] has seen a rejection exactly when one of the calls has
    been rejected. *)
Lemma deliver_rejection nodes st i :
  Forall2 (tracks cf c fields) nodes (promises st) ->
  (rejection st = None <-> Forall notRejected (promises st)) ->
  (rejection (deliver st i) = None <-> Forall notRejected (promises (deliver st i))).
Proof.
  intros Htr Hrej. unfold deliver.
  destruct (promises st !! i) as [p|] eqn:Hi; [|assumption].
  destruct (Forall2_lookup_r _ _ _ _ _ Htr Hi) as (n & Hn & Hp).
  pose proof (lookup_lt_Some _ _ _ Hi) as Hlt.
  destruct p as [[u|e] k|o]; [| |assumption].
  - destruct Hp as [Hp|Hp]; [|discriminate]. injection Hp as Ha Hk. subst k. cbn.
    rewrite (notRejected_insert _ _ _ _ Hi); [| intros e'; discriminate..].
    rewrite <- Hrej. destruct (rejection st); reflexivity.
  - cbn. split.
    + destruct (rejection st); discriminate.
    + intros Hall. exfalso.
      apply (proj1 (Forall_lookup _ _) Hall i (Settled (Rejected e))
               (list_lookup_insert_eq _ _ _ Hlt) e).
      reflexivity.
Qed.

Lemma deliver_all_rejection nodes arrival st :
  Forall2 (tracks cf c fields) nodes (promises st) ->
  (rejection st = None <-> Forall notRejected (promises st)) ->
  (rejection (fold_left deliver arrival st) = None
   <-> Forall notRejected (promises (fold_left deliver arrival st))).
Proof.
  revert st. induction arrival as [|i arrival IH]; intros st Htr Hrej; cbn; [assumption|].
  apply IH; [apply (deliver_step nodes st i Htr) | apply (deliver_rejection nodes), Hrej; exact Htr].
Qed.

Lemma settled_tracks nodes ps :
  Forall2 (tracks cf c fields) nodes ps ->
  (forall j, j < length ps -> exists o, ps !! j = Some (Settled o)) ->
  (Forall notRejected ps <-> forallb (accepted cf c fields) nodes = true).
Proof.
  induction 1 as [|n p nodes ps Hnp Hrest IH]; intros Hall; [cbn; split; auto|].
  destruct (Hall 0 ltac:(cbn; lia)) as [o Ho]. injection Ho as ->.
  destruct Hnp as [Hnp|Hnp]; [discriminate|]. injection Hnp as ->.
  rewrite Forall_cons. cbn [forallb]. rewrite andb_true_iff, <- IH.
  - unfold accepted, notRejected.
    destruct (answer_patch cf c (taskPath n) (fields n)) as [u|e]; split.
    + tauto.
    + intros [_ ?]. split; [intros e'; discriminate | assumption].
    + intros [Hno _]. exfalso. apply (Hno e). reflexivity.
    + intros [? _]. discriminate.
  - intros j Hj. apply (Hall (S j)). cbn. lia.
Qed.

(** The batch is fulfilled exactly when the service accepted every
    request; otherwise [Promise.all] rejects. *)
Lemma toggle_outcome nodes arrival tr :
  fst ((promises ← asyncMap (fun n => patchThenFire cf (Some c) (taskPath n) (fields n)
                                        (task_parent n)) nodes;
        promiseAll promises arrival) tr) = Fulfilled ()
  <-> forallb (accepted cf c fields) nodes = true.
Proof.
  unfold mbind, Async_bind. rewrite asyncMap_launch. unfold promiseAll. cbn [fst].
  set (ps := map _ nodes).
  set (st0 := {| promises := ps; log := _; rejection := settledRejection ps |}).
  set (l := arrival ++ seq 0 (length ps)).
  assert (Forall2 (tracks cf c fields) nodes (promises st0)) as Htr0
    by apply tracks_launch.
  assert (rejection st0 = None <-> Forall notRejected (promises st0)) as Hrej0.
  { cbn. subst ps. rewrite settledRejection_launch. split; [|reflexivity].
    intros _. apply Forall_forall. intros p Hp. apply list_elem_of_fmap in Hp as (n & -> & _).
    intros e. discriminate. }
  pose proof (deliver_all_rejection nodes l st0 Htr0 Hrej0) as Hrej.
  destruct (deliver_all_step nodes l st0 Htr0) as (Htr & _).
  rewrite <- (settled_tracks nodes _ Htr).
  - rewrite <- Hrej. destruct (rejection (fold_left deliver l st0)); split; intros; congruence.
  - intros j Hj. rewrite deliver_all_length in Hj.
    apply deliver_all_settles; [|exact Hj].
    apply elem_of_app. right. apply elem_of_seq. cbn in Hj |- *. lia.
Qed.
End EventLoop.

(** ** Toggle mutations *)

Lemma changeCompletedState_with_client cf c nodes arrival tr :
  answer_getClient cf = Fulfilled (Some c) ->
  changeCompletedState cf nodes arrival tr =
    (promises ← asyncMap (fun n => patchThenFire cf (Some c) (taskPath n)
                                     (completedFields n) (task_parent n)) nodes;
     promiseAll promises arrival) (tr ++ [GetClient]).
Proof.
  intros Hc. unfold changeCompletedState.
  unfold mbind at 1. unfold Async_bind at 1. unfold getClient, call.
  rewrite Hc. reflexivity.
Qed.

Lemma changeImportanceState_with_client cf c nodes arrival tr :
  answer_getClient cf = Fulfilled (Some c) ->
  changeImportanceState cf nodes arrival tr =
    (promises ← asyncMap (fun n => patchThenFire cf (Some c) (taskPath n)
                                     (importanceFields n) (task_parent n)) nodes;
     promiseAll promises arrival) (tr ++ [GetClient]).
Proof.
  intros Hc. unfold changeImportanceState.
  unfold mbind at 1. unfold Async_bind at 1. unfold getClient, call.
  rewrite Hc. reflexivity.
Qed.

Lemma changeCompletedState_log cf c nodes arrival tr :
  answer_getClient cf = Fulfilled (Some c) ->
  exists fires,
    snd (changeCompletedState cf nodes arrival tr)
      = tr ++ GetClient :: map (patchRequest completedFields) nodes ++ fires /\
    Permutation fires (invalidations cf c completedFields nodes).
Proof.
  intros Hc. rewrite (changeCompletedState_with_client _ _ _ _ _ Hc).
  destruct (toggle_log cf c completedFields nodes arrival (tr ++ [GetClient]))
    as (fires & Hlog & Hperm).
  exists fires. split; [|exact Hperm].
  rewrite Hlog, <- app_assoc. reflexivity.
Qed.

Lemma changeImportanceState_log cf c nodes arrival tr :
  answer_getClient cf = Fulfilled (Some c) ->
  exists fires,
    snd (changeImportanceState cf nodes arrival tr)
      = tr ++ GetClient :: map (patchRequest importanceFields) nodes ++ fires /\
    Permutation fires (invalidations cf c importanceFields nodes).
Proof.
  intros Hc. rewrite (changeImportanceState_with_client _ _ _ _ _ Hc).
  destruct (toggle_log cf c importanceFields nodes arrival (tr ++ [GetClient]))
    as (fires & Hlog & Hperm).
  exists fires. split; [|exact Hperm].
  rewrite Hlog, <- app_assoc. reflexivity.
Qed.

Lemma invalidations_are_fires cf c fields nodes fires :
  Permutation fires (invalidations cf c fields nodes) ->
  Forall (fun e => isFire e = true) fires.
Proof.
  intros Hperm. rewrite Hperm. unfold invalidations.
  apply Forall_forall. intros e He.
  apply list_elem_of_fmap in He as (n & -> & _). reflexivity.
Qed.

Lemma gatewayCalls_fires fires :
  Forall (fun e => isFire e = true) fires -> gatewayCalls fires = [].
Proof.
  induction 1 as [|e fires He _ IH]; [reflexivity|].
  destruct e; try discriminate. exact IH.
Qed.

Lemma gatewayCalls_patchRequests fields nodes :
  gatewayCalls (map (patchRequest fields) nodes) = map (patchRequest fields) nodes.
Proof.
  induction nodes as [|n nodes IH]; [reflexivity|]. cbn. f_equal. exact IH.
Qed.

(** The requests that a toggle adds to the log are its [patch] requests,
    one per node of the batch, in the order of the batch. *)
Lemma toggle_gatewayCalls cf c fields nodes tr fires :
  Permutation fires (invalidations cf c fields nodes) ->
  gatewayCalls (tr ++ GetClient :: map (patchRequest fields) nodes ++ fires)
    = gatewayCalls tr ++ map (patchRequest fields) nodes.
Proof.
  intros Hperm. rewrite gatewayCalls_app. f_equal.
  change (GetClient :: ?l) with ([GetClient] ++ l).
  rewrite !gatewayCalls_app, gatewayCalls_patchRequests.
  rewrite (gatewayCalls_fires fires (invalidations_are_fires _ _ _ _ _ Hperm)).
  cbn. apply app_nil_r.
Qed.




Example toggle_importance_of_milk :
  changeImportanceState sampleFactory [milk] [] []
  = (Fulfilled (),
     [GetClient;
      Patch "/me/todo/lists/L1/tasks/T1"
            {| patch_status := None; patch_importance := Some "high" |};
      Fire groceries]).
Proof. reflexivity. Qed.

Example toggle_batch_of_three :
  changeCompletedState sampleFactory [milk; eggs; bread] [2; 1; 0] []
  = (Rejected (RequestError "409"),
     [GetClient;
      Patch "/me/todo/lists/L1/tasks/T1"
            {| patch_status := Some "completed"; patch_importance := None |};
      Patch "/me/todo/lists/L1/tasks/T2"
            {| patch_status := Some "notStarted"; patch_importance := None |};
      Patch "/me/todo/lists/L1/tasks/T3"
            {| patch_status := Some "completed"; patch_importance := None |};
      Fire groceries;
      Fire groceries]).
Proof. reflexivity. Qed.

Lemma toggle_independent cf c fields nodes fires :
  Permutation fires (invalidations cf c fields nodes) ->
  (forall i n, nodes !! i = Some n -> accepted cf c fields n = true ->
     Fire (task_parent n) ∈ fires) /\
  length fires = length (List.filter (accepted cf c fields) nodes).
Proof.
  intros Hperm. split.
  - intros i n Hi Hacc. rewrite Hperm. unfold invalidations.
    apply list_elem_of_fmap. exists n. split; [reflexivity|].
    apply list_elem_of_In, List.filter_In. split; [|exact Hacc].
    apply list_elem_of_In, list_elem_of_lookup. exists i. exact Hi.
  - rewrite (Permutation_length Hperm). unfold invalidations. apply length_map.
Qed.

(** C6. With a client at hand, a toggle over a batch sends all its [patch]
    requests before it handles any reply, and whatever the order in which
    the replies arrive and whichever requests the service rejects, the
    invalidations fired are exactly those of the accepted requests: every
    task whose own request is accepted gets the invalidation of its parent
    list, also when the request of another task of the batch fails. The
    batch as a whole is fulfilled only if every request was accepted. *)
Theorem rejected_patch_does_not_stop_other_tasks cf c nodes arrival tr :
  answer_getClient cf = Fulfilled (Some c) ->
  (exists fires,
     snd (changeCompletedState cf nodes arrival tr)
       = tr ++ GetClient :: map (fun n => Patch (taskPath n) (completedFields n)) nodes
            ++ fires /\
     Permutation fires
       (map (fun n => Fire (task_parent n))
            (List.filter (accepted cf c completedFields) nodes)) /\
     (forall i n, nodes !! i = Some n -> accepted cf c completedFields n = true ->
        Fire (task_parent n) ∈ fires) /\
     length fires = length (List.filter (accepted cf c completedFields) nodes)) /\
  (fst (changeCompletedState cf nodes arrival tr) = Fulfilled ()
   <-> forallb (accepted cf c completedFields) nodes = true) /\
  (exists fires,
     snd (changeImportanceState cf nodes arrival tr)
       = tr ++ GetClient :: map (fun n => Patch (taskPath n) (importanceFields n)) nodes
            ++ fires /\
     Permutation fires
       (map (fun n => Fire (task_parent n))
            (List.filter (accepted cf c importanceFields) nodes)) /\
     (forall i n, nodes !! i = Some n -> accepted cf c importanceFields n = true ->
        Fire (task_parent n) ∈ fires) /\
     length fires = length (List.filter (accepted cf c importanceFields) nodes)) /\
  (fst (changeImportanceState cf nodes arrival tr) = Fulfilled ()
   <-> forallb (accepted cf c importanceFields) nodes = true).
Proof.
  intros Hc. split; [|split; [|split]].
  - destruct (changeCompletedState_log cf c nodes arrival tr Hc) as (fires & Hlog & Hperm).
    exists fires. split; [exact Hlog|]. split; [exact Hperm|].
    apply toggle_independent, Hperm.
  - rewrite (changeCompletedState_with_client _ _ _ _ _ Hc). apply toggle_outcome.
  - destruct (changeImportanceState_log cf c nodes arrival tr Hc) as (fires & Hlog & Hperm).
    exists fires. split; [exact Hlog|]. split; [exact Hperm|].
    apply toggle_independent, Hperm.
  - rewrite (changeImportanceState_with_client _ _ _ _ _ Hc). apply toggle_outcome.
Qed.

Lemma rejected_patch_does_not_stop_other_tasks_witness :
  answer_getClient sampleFactory = Fulfilled (Some sampleClient) /\
  accepted sampleFactory sampleClient completedFields eggs = false /\
  exists fires,
    snd (changeCompletedState sampleFactory [milk; eggs; bread] [1; 2; 0] [])
      = [] ++ GetClient
           :: map (fun n => Patch (taskPath n) (completedFields n)) [milk; eggs; bread]
           ++ fires /\
    Permutation fires
      (map (fun n => Fire (task_parent n))
           (List.filter (accepted sampleFactory sampleClient completedFields)
                        [milk; eggs; bread])) /\
    (forall i n, [milk; eggs; bread] !! i = Some n ->
       accepted sampleFactory sampleClient completedFields n = true ->
       Fire (task_parent n) ∈ fires) /\
    length fires
      = length (List.filter (accepted sampleFactory sampleClient completedFields)
                            [milk; eggs; bread]).
Proof.
  split; [reflexivity|]. split; [reflexivity|].
  apply (rejected_patch_does_not_stop_other_tasks sampleFactory sampleClient
           [milk; eggs; bread] [1; 2; 0] []).
  reflexivity.
Defined.

Lemma acceptedPatches_fires cf c path fires :
  Forall (fun e => isFire e = true) fires -> acceptedPatches cf c path fires = [].
Proof.
  induction 1 as [|e fires He _ IH]; [reflexivity|].
  destruct e; try discriminate. exact IH.
Qed.

Lemma acceptedPatches_app cf c path tr1 tr2 :
  acceptedPatches cf c path (tr1 ++ tr2)
  = acceptedPatches cf c path tr1 ++ acceptedPatches cf c path tr2.
Proof. apply omap_app. Qed.

(** After a toggle of the single task [n] that the service accepts, a fresh
    fetch shows the task with the patched status. *)
Lemma freshSnapshot_after_toggle cf c n arrival :
  answer_getClient cf = Fulfilled (Some c) ->
  (forall fields, answer_patch cf c (taskPath n) fields = Fulfilled ()) ->
  freshSnapshot cf c n (snd (changeCompletedState cf [n] arrival []))
  = {| task_entity := applyPatch (completedFields n) (task_entity n);
       task_parent := task_parent n |}.
Proof.
  intros Hc Hok.
  destruct (changeCompletedState_log cf c [n] arrival [] Hc) as (fires & Hlog & Hperm).
  rewrite Hlog. unfold freshSnapshot. f_equal.
  change ([] ++ GetClient :: map (patchRequest completedFields) [n] ++ fires)
    with ([GetClient; Patch (taskPath n) (completedFields n)] ++ fires).
  rewrite acceptedPatches_app.
  rewrite (acceptedPatches_fires cf c _ fires
             (invalidations_are_fires _ _ _ _ _ Hperm)).
  cbn -[taskPath completedFields].
  rewrite String.eqb_refl, Hok. reflexivity.
Qed.

(** C7, as the code has it. When the service accepts the requests for the
    task, two toggles of completion with a fresh fetch after each leave the
    status [completed] if it was [completed] and [notStarted] otherwise. So
    a status that is [completed] or [notStarted] is restored, and for every
    status the task is completed afterwards exactly if it was before. *)
Theorem toggle_completion_twice_restores_completed_or_notStarted
    cf c n arrival1 arrival2 :
  answer_getClient cf = Fulfilled (Some c) ->
  (forall fields, answer_patch cf c (taskPath n) fields = Fulfilled ()) ->
  let n2 := toggleCompletionTwice cf c n arrival1 arrival2 in
  status (task_entity n2)
    = Some (if strictEq (status (task_entity n)) "completed"
            then "completed" else "notStarted") /\
  (status (task_entity n) = Some "completed" \/ status (task_entity n) = Some "notStarted" ->
   status (task_entity n2) = status (task_entity n)) /\
  strictEq (status (task_entity n2)) "completed"
    = strictEq (status (task_entity n)) "completed".
Proof.
  intros Hc Hok n2.
  assert (status (task_entity n2)
          = Some (if strictEq (status (task_entity n)) "completed"
                  then "completed" else "notStarted")) as Hn2.
  { subst n2. unfold toggleCompletionTwice.
    rewrite (freshSnapshot_after_toggle cf c n arrival1 Hc Hok).
    rewrite (freshSnapshot_after_toggle cf c _ arrival2 Hc) by exact Hok.
    cbn. destruct (strictEq (status (task_entity n)) "completed"); reflexivity. }
  split; [exact Hn2|]. split.
  - rewrite Hn2. intros [-> | ->]; reflexivity.
  - rewrite Hn2. destruct (strictEq (status (task_entity n)) "completed"); reflexivity.
Qed.

Lemma toggle_completion_twice_restores_completed_or_notStarted_witness :
  answer_getClient sampleFactory = Fulfilled (Some sampleClient) /\
  (forall fields, answer_patch sampleFactory sampleClient (taskPath milk) fields
                  = Fulfilled ()) /\
  status (task_entity milk) = Some "notStarted" /\
  status (task_entity (toggleCompletionTwice sampleFactory sampleClient milk [] []))
    = status (task_entity milk).
Proof.
  split; [reflexivity|]. split; [intros fields; reflexivity|]. split; [reflexivity|].
  apply (toggle_completion_twice_restores_completed_or_notStarted
           sampleFactory sampleClient milk [] [] eq_refl (fun _ => eq_refl)).
  right. reflexivity.
Defined.

(** C7, as stated, fails for a task whose status is neither [completed] nor
    [notStarted]: a task in progress is [completed] after the first toggle
    and [notStarted] after the second. *)
Lemma toggle_completion_twice_changes_inProgress :
  answer_getClient sampleFactory = Fulfilled (Some sampleClient) /\
  (forall fields, answer_patch sampleFactory sampleClient (taskPath rice) fields
                  = Fulfilled ()) /\
  status (task_entity rice) = Some "inProgress" /\
  status (task_entity (toggleCompletionTwice sampleFactory sampleClient rice [] []))
    = Some "notStarted" /\
  status (task_entity (toggleCompletionTwice sampleFactory sampleClient rice [] []))
    <> status (task_entity rice).
Proof.
  split; [reflexivity|]. split; [intros fields; reflexivity|].
  split; [reflexivity|]. split; [reflexivity|]. discriminate.
Qed.

(** ** Commands *)

(** C10. [uncomplete] runs what [complete] runs and [unstar] runs what
    [star] runs, on every node, selection and order of replies. So, with a
    client at hand, [uncomplete] on a task that is not completed asks the
    service to set its status to [completed], and [unstar] on a task that
    is not of high importance asks it to set the importance to [high]. *)
Theorem uncomplete_and_unstar_run_the_same_toggles cf node nodes arrival :
  runCommand cf uncomplete node nodes arrival = runCommand cf complete node nodes arrival /\
  runCommand cf unstar node nodes arrival = runCommand cf star node nodes arrival /\
  (forall c tr,
     answer_getClient cf = Fulfilled (Some c) ->
     strictEq (status (task_entity node)) "completed" = false ->
     gatewayCalls (snd (runCommand cf uncomplete node None arrival tr))
       = gatewayCalls tr
           ++ [Patch (taskPath node)
                     {| patch_status := Some "completed"; patch_importance := None |}]) /\
  (forall c tr,
     answer_getClient cf = Fulfilled (Some c) ->
     strictEq (importance (task_entity node)) "high" = false ->
     gatewayCalls (snd (runCommand cf unstar node None arrival tr))
       = gatewayCalls tr
           ++ [Patch (taskPath node)
                     {| patch_status := None; patch_importance := Some "high" |}]).
Proof.
  split; [reflexivity|]. split; [reflexivity|]. split; intros c tr Hc Hnot; cbn [runCommand].
  - destruct (changeCompletedState_log cf c [node] arrival tr Hc) as (fires & Hlog & Hperm).
    rewrite Hlog, (toggle_gatewayCalls cf c completedFields _ _ _ Hperm).
    cbn [map]. unfold patchRequest, completedFields. rewrite Hnot. reflexivity.
  - destruct (changeImportanceState_log cf c [node] arrival tr Hc) as (fires & Hlog & Hperm).
    rewrite Hlog, (toggle_gatewayCalls cf c importanceFields _ _ _ Hperm).
    cbn [map]. unfold patchRequest, importanceFields. rewrite Hnot. reflexivity.
Qed.

Lemma uncomplete_and_unstar_run_the_same_toggles_witness :
  answer_getClient sampleFactory = Fulfilled (Some sampleClient) /\
  strictEq (status (task_entity milk)) "completed" = false /\
  strictEq (importance (task_entity milk)) "high" = false /\
  gatewayCalls (snd (runCommand sampleFactory uncomplete milk None [] []))
    = gatewayCalls []
        ++ [Patch (taskPath milk)
                  {| patch_status := Some "completed"; patch_importance := None |}] /\
  gatewayCalls (snd (runCommand sampleFactory unstar milk None [] []))
    = gatewayCalls []
        ++ [Patch (taskPath milk)
                  {| patch_status := None; patch_importance := Some "high" |}].
Proof.
  split; [reflexivity|]. split; [reflexivity|]. split; [reflexivity|].
  destruct (uncomplete_and_unstar_run_the_same_toggles sampleFactory milk None [])
    as (_ & _ & Hstatus & Himportance).
  split.
  - apply (Hstatus sampleClient []); reflexivity.
  - apply (Himportance sampleClient []); reflexivity.
Defined.

(** ** Display *)

Lemma string_length_append s1 s2 :
  String.length (s1 +:+ s2) = String.length s1 + String.length s2.
Proof. induction s1 as [|a s1 IH]; simpl; [reflexivity | f_equal; exact IH]. Qed.

Lemma substring_whole s : String.substring 0 (String.length s) s = s.
Proof. induction s as [|a s IH]; simpl; [reflexivity | f_equal; exact IH]. Qed.

Lemma substring_append_right s1 s2 :
  String.substring (String.length s1) (String.length s2) (s1 +:+ s2) = s2.
Proof. induction s1 as [|a s1 IH]; simpl; [apply substring_whole | exact IH]. Qed.

(** C8. The label of a task item is the title ([""] without a title) when
    the task has no due timestamp. When it has the due timestamp [d], the
    label is the title, two spaces and the suffix [" DUE <date> "]; it is
    strictly longer than the title, and its only highlight is the span of
    the suffix, from the end of the two spaces to the end of the label. *)
Theorem task_label_is_title_then_highlighted_due_suffix loc element :
  let item := getTreeItem loc (TaskE element) in
  let text := labelText (item_label item) in
  let bare := orEmpty (title (task_entity element)) in
  (whenTruthy (dueDateTime (task_entity element) ≫= dateTime) = None ->
     text = bare /\ labelHighlights (item_label item) = []) /\
  (forall d, whenTruthy (dueDateTime (task_entity element) ≫= dateTime) = Some d ->
     text = (bare +:+ "  ") +:+ (" DUE " +:+ toLocaleDateString loc d +:+ " ") /\
     String.length bare < String.length text /\
     labelHighlights (item_label item) = [(String.length bare + 2, String.length text)] /\
     span text (String.length bare + 2, String.length text)
       = " DUE " +:+ toLocaleDateString loc d +:+ " ").
Proof.
  cbn zeta. cbn [getTreeItem item_label labelText labelHighlights]. unfold taskLabel.
  split.
  - intros ->. split; reflexivity.
  - intros d ->. cbn [label highlights]. unfold dueSuffix.
    set (bare := orEmpty (title (task_entity element))).
    set (dueStr := " DUE " +:+ toLocaleDateString loc d +:+ " ").
    assert (String.length (bare +:+ "  ") = String.length bare + 2) as Hlen
      by (rewrite string_length_append; reflexivity).
    split; [reflexivity|]. rewrite (string_length_append (bare +:+ "  ")), Hlen.
    split; [lia|]. split; [reflexivity|].
    unfold span. cbn [fst snd].
    replace (String.length bare + 2 + String.length dueStr - (String.length bare + 2))
      with (String.length dueStr) by lia.
    rewrite <- Hlen. apply substring_append_right.
Qed.

Lemma task_label_is_title_then_highlighted_due_suffix_witness :
  let due := {| task_id := Some "T5"; title := Some "Tea"; status := Some "notStarted";
                importance := Some "normal";
                dueDateTime := Some {| dateTime := Some "2026-01-02T00:00:00.0000000";
                                       timeZone := Some "UTC" |};
                body := None; reminderDateTime := None |} in
  (whenTruthy (dueDateTime (task_entity milk) ≫= dateTime) = None /\
   labelText (item_label (getTreeItem sampleLocale (TaskE milk))) = "Milk") /\
  (whenTruthy (dueDateTime due ≫= dateTime) = Some "2026-01-02T00:00:00.0000000" /\
   labelText (item_label (getTreeItem sampleLocale (TaskE (taskIn groceries due))))
     = "Tea   DUE 1/2/2026 " /\
   labelHighlights (item_label (getTreeItem sampleLocale (TaskE (taskIn groceries due))))
     = [(5, 19)]).
Proof.
  intros due. split.
  - split; [reflexivity|].
    apply (proj1 (task_label_is_title_then_highlighted_due_suffix sampleLocale milk)).
    reflexivity.
  - split; [reflexivity|].
    destruct (proj2 (task_label_is_title_then_highlighted_due_suffix sampleLocale
                       (taskIn groceries due)) "2026-01-02T00:00:00.0000000" eq_refl)
      as (Htext & _ & Hhigh & _).
    split; [exact Htext | exact Hhigh].
Defined.

(** ** The task details web view *)

(** [changeTaskNode] runs to its end exactly for a task that has a body. *)
Lemma changeTaskNode_fulfilled_iff_body loc taskNode p :
  fst (changeTaskNode loc taskNode p) = Fulfilled ()
  <-> body (task_entity taskNode) <> None.
Proof.
  unfold changeTaskNode. destruct (body (task_entity taskNode)); cbn; split; congruence.
Qed.

(** The tree item of a task without due date and body: no suffix, no
    highlight, and the tooltip is the emphasised title. *)
Lemma getTreeItem_without_optional_fields loc element :
  dueDateTime (task_entity element) = None ->
  body (task_entity element) = None ->
  item_label (getTreeItem loc (TaskE element))
    = LabelObject {| label := orEmpty (title (task_entity element)); highlights := [] |} /\
  tooltip (getTreeItem loc (TaskE element))
    = Some ("*" +:+ orEmpty (title (task_entity element)) +:+ "*").
Proof.
  intros Hdue Hbody. cbn. unfold taskLabel, taskTooltip. rewrite Hdue, Hbody.
  split; reflexivity.
Qed.

(** C9, at a task without due date, body and reminder. The tree item of the
    task is built, without suffix and highlight. [changeTaskNode] throws a
    [TypeError] when it reads the content of the absent body: the state,
    the current node and the title have been set, the buttons are not
    hidden and the reminder badge is not updated. *)
Theorem changeTaskNode_throws_on_task_without_body :
  dueDateTime (task_entity milk) = None /\
  body (task_entity milk) = None /\
  reminderDateTime (task_entity milk) = None /\
  item_label (getTreeItem sampleLocale (TaskE milk))
    = LabelObject {| label := "Milk"; highlights := [] |} /\
  changeTaskNode sampleLocale milk emptyPanel
    = (Rejected (TypeError "Cannot read properties of undefined (reading 'content')"),
       {| state := Some milk; currentNode := Some milk;
          title_value := Some "Milk"; body_value := None;
          updateButton_hidden := false; cancelButton_hidden := false;
          remindDate_hidden := true; remindDate_innerHTML := "" |}).
Proof. repeat split. Qed.

(** * Further properties *)

(** ** Failures of the collaborators *)

(** X1. When [getClient] itself fails, [getChildren] and both toggles
    reject with that error after the [getClient] call alone: no request is
    sent and no invalidation is fired. *)
Theorem getClient_failure_is_passed_on cf e element nodes arrival tr :
  answer_getClient cf = Rejected e ->
  getChildren cf element tr = (Rejected e, tr ++ [GetClient]) /\
  changeCompletedState cf nodes arrival tr = (Rejected e, tr ++ [GetClient]) /\
  changeImportanceState cf nodes arrival tr = (Rejected e, tr ++ [GetClient]).
Proof.
  intros He.
  unfold getChildren, changeCompletedState, changeImportanceState.
  unfold mbind at 1 3 5. unfold Async_bind at 1 3 5. unfold getClient, call.
  rewrite He. repeat split.
Qed.

Lemma getClient_failure_is_passed_on_witness :
  answer_getClient brokenFactory = Rejected (RequestError "network") /\
  getChildren brokenFactory None [] = (Rejected (RequestError "network"), [] ++ [GetClient]) /\
  changeCompletedState brokenFactory [milk; eggs] [1; 0] []
    = (Rejected (RequestError "network"), [] ++ [GetClient]) /\
  changeImportanceState brokenFactory [milk; eggs] [1; 0] []
    = (Rejected (RequestError "network"), [] ++ [GetClient]).
Proof.
  split; [reflexivity|].
  apply (getClient_failure_is_passed_on brokenFactory (RequestError "network")
           None [milk; eggs] [1; 0] []).
  reflexivity.
Defined.

(** X2. When the fetch of the lists fails, expanding the root rejects with
    that error and yields no node, not even the create-list node. When the
    fetch of the tasks fails, expanding a status node of a list rejects
    with that error. *)
Theorem getAll_failure_is_passed_on cf c e element getCompleted tr :
  answer_getClient cf = Fulfilled (Some c) ->
  (answer_getAllLists cf c "/me/todo/lists" = Rejected e ->
   getChildren cf None tr = (Rejected e, tr ++ [GetClient; GetAll "/me/todo/lists"])) /\
  (answer_getAllTasks cf c (tasksPath element getCompleted) = Rejected e ->
   getChildren cf
     (Some (StatusE {| statusType := (if getCompleted then completed else inProgress);
                       status_getChildren := getTasks cf c element getCompleted |})) tr
   = (Rejected e, tr ++ [GetClient; GetAll (tasksPath element getCompleted)])).
Proof.
  intros Hc. split; intros He; rewrite (getChildren_unfold_client _ _ _ _ Hc).
  - unfold mbind, Async_bind, getAllLists, call. rewrite He, <- app_assoc. reflexivity.
  - unfold mbind, Async_bind. cbn [status_getChildren]. rewrite getTasks_run, He.
    rewrite <- app_assoc. reflexivity.
Qed.

Lemma getAll_failure_is_passed_on_witness :
  answer_getClient offlineFactory = Fulfilled (Some sampleClient) /\
  getChildren offlineFactory None []
    = (Rejected (RequestError "503"), [] ++ [GetClient; GetAll "/me/todo/lists"]) /\
  getChildren offlineFactory
    (Some (StatusE {| statusType := inProgress;
                      status_getChildren :=
                        getTasks offlineFactory sampleClient groceries false |})) []
    = (Rejected (RequestError "503"),
       [] ++ [GetClient; GetAll (tasksPath groceries false)]).
Proof.
  split; [reflexivity|].
  destruct (getAll_failure_is_passed_on offlineFactory sampleClient (RequestError "503")
              groceries false [] eq_refl) as [Hroot Hstatus].
  split; [apply Hroot | apply Hstatus]; reflexivity.
Defined.

(** ** Leaves *)

(** X3. With a client at hand, the nodes that [getTreeItem] shows as not
    expandable are exactly the nodes for which [getChildren] yields no
    result (task nodes and the create-list node); for them [getChildren]
    makes the [getClient] call and nothing else. *)
Theorem leaf_items_are_the_nodes_without_children loc cf c element tr :
  answer_getClient cf = Fulfilled (Some c) ->
  (collapsibleState (getTreeItem loc element) = TreeItemCollapsibleState.None
   <-> fst (getChildren cf (Some element) tr) = Fulfilled None) /\
  (collapsibleState (getTreeItem loc element) = TreeItemCollapsibleState.None ->
   getChildren cf (Some element) tr = (Fulfilled None, tr ++ [GetClient])).
Proof.
  intros Hc. rewrite (getChildren_unfold_client _ _ _ _ Hc).
  destruct element as [n|s|l|]; cbn [getTreeItem collapsibleState fst].
  - split; [split|]; reflexivity.
  - unfold mbind, Async_bind.
    destruct (status_getChildren s (tr ++ [GetClient])) as [[tasks|e] tr'];
      destruct (statusType s); cbn; (split; [split|]; discriminate).
  - split; [split|]; discriminate.
  - split; [split|]; reflexivity.
Qed.

Lemma leaf_items_are_the_nodes_without_children_witness :
  answer_getClient sampleFactory = Fulfilled (Some sampleClient) /\
  collapsibleState (getTreeItem sampleLocale (TaskE milk)) = TreeItemCollapsibleState.None /\
  getChildren sampleFactory (Some (TaskE milk)) [] = (Fulfilled None, [] ++ [GetClient]).
Proof.
  split; [reflexivity|]. split; [reflexivity|].
  apply (proj2 (leaf_items_are_the_nodes_without_children sampleLocale sampleFactory
                  sampleClient (TaskE milk) [] eq_refl)).
  reflexivity.
Defined.

(** ** From expansion to mutation *)



(** ** Toggles: edge cases *)

Lemma asyncMap_without_client cf fields nodes tr :
  asyncMap (fun n => patchThenFire cf None (taskPath n) (fields n) (task_parent n)) nodes tr
  = (Fulfilled (map (fun _ => Settled (Rejected
                       (TypeError "Cannot read properties of undefined"))) nodes), tr).
Proof.
  revert tr. induction nodes as [|n nodes IH]; intros tr; cbn; [reflexivity|].
  rewrite IH. reflexivity.
Qed.

Lemma deliver_settled st i :
  Forall (fun p => isSettled p = true) (promises st) -> deliver st i = st.
Proof.
  intros Hall. unfold deliver.
  destruct (promises st !! i) as [p|] eqn:Hi; [|reflexivity].
  pose proof (proj1 (Forall_lookup _ _) Hall i p Hi) as Hp.
  destruct p; [discriminate | reflexivity].
Qed.

Lemma deliver_all_settled l st :
  Forall (fun p => isSettled p = true) (promises st) -> fold_left deliver l st = st.
Proof.
  intros Hall. induction l as [|i l IH]; cbn; [reflexivity|].
  rewrite deliver_settled by assumption. exact IH.
Qed.

Lemma settledRejection_all_rejected {A} e (nodes : list A) :
  nodes <> [] ->
  settledRejection (map (fun _ => Settled (Rejected e)) nodes) = Some e.
Proof.
  destruct nodes as [|n nodes]; [congruence|]. intros _.
  unfold settledRejection. cbn.
  induction nodes as [|m nodes IH]; [reflexivity | exact IH].
Qed.

Lemma toggle_without_client cf fields nodes arrival tr :
  nodes <> [] ->
  (promises ← asyncMap (fun n => patchThenFire cf None (taskPath n) (fields n)
                                   (task_parent n)) nodes;
   promiseAll promises arrival) tr
  = (Rejected (TypeError "Cannot read properties of undefined"), tr).
Proof.
  intros Hne. unfold mbind, Async_bind. rewrite asyncMap_without_client.
  unfold promiseAll. rewrite deliver_all_settled.
  - cbn [rejection log]. rewrite settledRejection_all_rejected by assumption. reflexivity.
  - cbn [promises]. apply Forall_forall. intros p Hp.
    apply list_elem_of_fmap in Hp as (n & -> & _). reflexivity.
Qed.

(** X5. Without a client, a toggle over a batch that is not empty rejects
    with the [TypeError] of [client!.api]: after the [getClient] call no
    request is sent and no invalidation is fired, whatever the nodes. *)
Theorem toggle_without_client_throws cf nodes arrival tr :
  answer_getClient cf = Fulfilled None ->
  nodes <> [] ->
  changeCompletedState cf nodes arrival tr
    = (Rejected (TypeError "Cannot read properties of undefined"), tr ++ [GetClient]) /\
  changeImportanceState cf nodes arrival tr
    = (Rejected (TypeError "Cannot read properties of undefined"), tr ++ [GetClient]).
Proof.
  intros Hc Hne. unfold changeCompletedState, changeImportanceState.
  unfold mbind at 1 3. unfold Async_bind at 1 3. unfold getClient, call. rewrite Hc.
  split; apply toggle_without_client, Hne.
Qed.

Lemma toggle_without_client_throws_witness :
  answer_getClient signedOutFactory = Fulfilled None /\
  [milk; eggs] <> [] /\
  changeCompletedState signedOutFactory [milk; eggs] [1; 0] []
    = (Rejected (TypeError "Cannot read properties of undefined"), [] ++ [GetClient]) /\
  changeImportanceState signedOutFactory [milk; eggs] [1; 0] []
    = (Rejected (TypeError "Cannot read properties of undefined"), [] ++ [GetClient]).
Proof.
  split; [reflexivity|]. split; [discriminate|].
  apply (toggle_without_client_throws signedOutFactory [milk; eggs] [1; 0] []);
    [reflexivity | discriminate].
Defined.

Lemma toggle_of_nothing cf client fields arrival tr :
  (promises ← asyncMap (fun n => patchThenFire cf client (taskPath n) (fields n)
                                   (task_parent n)) [];
   promiseAll promises arrival) tr
  = (Fulfilled (), tr).
Proof.
  unfold mbind, Async_bind. cbn [asyncMap]. unfold promiseAll.
  rewrite deliver_all_settled by (cbn; constructor). reflexivity.
Qed.

(** X6. A command called with a selection works on the selection alone:
    the node that was clicked is not used. With an empty selection it ends
    fulfilled after the [getClient] call, with or without a client: no
    request, no invalidation, no error. Without a selection it works on the
    clicked node as on a selection of one. *)
Theorem command_with_selection_ignores_clicked_node
    cf client cmd node node' nodes arrival tr :
  answer_getClient cf = Fulfilled client ->
  runCommand cf cmd node (Some nodes) arrival = runCommand cf cmd node' (Some nodes) arrival /\
  runCommand cf cmd node (Some []) arrival tr = (Fulfilled (), tr ++ [GetClient]) /\
  runCommand cf cmd node None arrival = runCommand cf cmd node' (Some [node]) arrival.
Proof.
  intros Hc. split; [destruct cmd; reflexivity|]. split; [|destruct cmd; reflexivity].
  destruct cmd; cbn [runCommand];
    unfold changeCompletedState, changeImportanceState;
    unfold mbind at 1; unfold Async_bind at 1; unfold getClient, call; rewrite Hc;
    apply toggle_of_nothing.
Qed.

Lemma command_with_selection_ignores_clicked_node_witness :
  answer_getClient signedOutFactory = Fulfilled None /\
  runCommand signedOutFactory complete milk (Some []) [] []
    = (Fulfilled (), [] ++ [GetClient]).
Proof.
  split; [reflexivity|].
  apply (command_with_selection_ignores_clicked_node signedOutFactory None complete
           milk eggs [bread] [] []).
  reflexivity.
Defined.

(** ** Toggles: which error a batch reports *)

Section FirstRejection.
Variable cf : ClientFactory.
Variable c : Client.
Variable fields : TaskNode -> PatchBody.

Lemma deliver_notes_rejection nodes st i :
  Forall2 (tracks cf c fields) nodes (promises st) ->
  (rejection st = None <-> Forall notRejected (promises st)) ->
  rejection (deliver st i)
  = match rejection st with
    | Some e => Some e
    | None => rejectionOf cf c fields nodes i
    end.
Proof.
  intros Htr Hrej. unfold deliver, rejectionOf.
  destruct (promises st !! i) as [p|] eqn:Hi.
  - destruct (Forall2_lookup_r _ _ _ _ _ Htr Hi) as (n & Hn & Hp). rewrite Hn.
    destruct p as [[u|e] k|o].
    + destruct Hp as [Hp|Hp]; [|discriminate]. injection Hp as Ha Hk. subst k.
      rewrite <- Ha. cbn. destruct (rejection st); reflexivity.
    + destruct Hp as [Hp|Hp]; [|discriminate]. injection Hp as Ha Hk.
      rewrite <- Ha. cbn. destruct (rejection st); reflexivity.
    + destruct Hp as [Hp|Hp]; [discriminate|]. injection Hp as Ho.
      destruct (rejection st) as [e'|] eqn:Hr; [reflexivity|].
      rewrite <- Ho. destruct o as [u|e]; [reflexivity|]. exfalso.
      apply (proj1 (Forall_lookup _ _) (proj1 Hrej eq_refl) i _ Hi e). reflexivity.
  - assert (nodes !! i = None) as ->.
    { apply lookup_ge_None. rewrite (Forall2_length _ _ _ Htr).
      apply lookup_ge_None, Hi. }
    destruct (rejection st); reflexivity.
Qed.

Lemma deliver_all_notes_rejection nodes arrival st :
  Forall2 (tracks cf c fields) nodes (promises st) ->
  (rejection st = None <-> Forall notRejected (promises st)) ->
  rejection (fold_left deliver arrival st)
  = match rejection st with
    | Some e => Some e
    | None => firstRejection cf c fields nodes arrival
    end.
Proof.
  revert st. induction arrival as [|i arrival IH]; intros st Htr Hrej.
  - cbn. destruct (rejection st); reflexivity.
  - cbn [fold_left]. rewrite IH.
    + rewrite (deliver_notes_rejection nodes st i Htr Hrej).
      unfold firstRejection. cbn [omap list_omap].
      destruct (rejection st); [reflexivity|].
      destruct (rejectionOf cf c fields nodes i); reflexivity.
    + apply (deliver_step cf c fields nodes st i Htr).
    + apply (deliver_rejection cf c fields nodes st i Htr Hrej).
Qed.

(** With a client, the batch ends with the error of the rejected reply
    that arrives first, and is fulfilled if there is none. *)
Lemma toggle_reports_first_rejection nodes arrival tr :
  fst ((promises ← asyncMap (fun n => patchThenFire cf (Some c) (taskPath n) (fields n)
                                        (task_parent n)) nodes;
        promiseAll promises arrival) tr)
  = match firstRejection cf c fields nodes (arrival ++ seq 0 (length nodes)) with
    | Some e => Rejected e
    | None => Fulfilled ()
    end.
Proof.
  unfold mbind, Async_bind. rewrite asyncMap_launch. unfold promiseAll. cbn [fst].
  rewrite (deliver_all_notes_rejection nodes).
  - cbn [rejection]. rewrite settledRejection_launch, length_map. reflexivity.
  - apply tracks_launch.
  - cbn [rejection promises]. rewrite settledRejection_launch. split; [|reflexivity].
    intros _. apply Forall_forall. intros p Hp.
    apply list_elem_of_fmap in Hp as (n & -> & _). intros e. discriminate.
Qed.
End FirstRejection.

(** X7. With a client at hand, a toggle over a batch is fulfilled when the
    service accepts every request, and otherwise rejects with the error of
    the rejected request whose reply arrives first; replies not named in
    the order of arrival come last, in the order of the batch. *)
Theorem toggle_rejects_with_first_rejected_reply cf c nodes arrival tr :
  answer_getClient cf = Fulfilled (Some c) ->
  fst (changeCompletedState cf nodes arrival tr)
    = match firstRejection cf c completedFields nodes (arrival ++ seq 0 (length nodes)) with
      | Some e => Rejected e
      | None => Fulfilled ()
      end /\
  fst (changeImportanceState cf nodes arrival tr)
    = match firstRejection cf c importanceFields nodes (arrival ++ seq 0 (length nodes)) with
      | Some e => Rejected e
      | None => Fulfilled ()
      end.
Proof.
  intros Hc.
  rewrite (changeCompletedState_with_client _ _ _ _ _ Hc).
  rewrite (changeImportanceState_with_client _ _ _ _ _ Hc).
  split; apply toggle_reports_first_rejection.
Qed.

Lemma toggle_rejects_with_first_rejected_reply_witness :
  answer_getClient offlineFactory = Fulfilled (Some sampleClient) /\
  answer_getClient sampleFactory = Fulfilled (Some sampleClient) /\
  fst (changeCompletedState offlineFactory [milk; eggs] [1] []) = Rejected (RequestError "503") /\
  fst (changeCompletedState sampleFactory [milk; eggs; bread] [2; 0] [])
    = Rejected (RequestError "409").
Proof.
  split; [reflexivity|]. split; [reflexivity|]. split.
  - apply (proj1 (toggle_rejects_with_first_rejected_reply offlineFactory sampleClient
                    [milk; eggs] [1] [] eq_refl)).
  - apply (proj1 (toggle_rejects_with_first_rejected_reply sampleFactory sampleClient
                    [milk; eggs; bread] [2; 0] [] eq_refl)).
Defined.

(** ** Toggles and what is shown afterwards *)

Lemma freshSnapshot_after_importance_toggle cf c n arrival :
  answer_getClient cf = Fulfilled (Some c) ->
  (forall fields, answer_patch cf c (taskPath n) fields = Fulfilled ()) ->
  freshSnapshot cf c n (snd (changeImportanceState cf [n] arrival []))
  = {| task_entity := applyPatch (importanceFields n) (task_entity n);
       task_parent := task_parent n |}.
Proof.
  intros Hc Hok.
  destruct (changeImportanceState_log cf c [n] arrival [] Hc) as (fires & Hlog & Hperm).
  rewrite Hlog. unfold freshSnapshot. f_equal.
  change ([] ++ GetClient :: map (patchRequest importanceFields) [n] ++ fires)
    with ([GetClient; Patch (taskPath n) (importanceFields n)] ++ fires).
  rewrite acceptedPatches_app.
  rewrite (acceptedPatches_fires cf c _ fires
             (invalidations_are_fires _ _ _ _ _ Hperm)).
  cbn -[taskPath importanceFields].
  rewrite String.eqb_refl, Hok. reflexivity.
Qed.

(** X8. When the service accepts the requests for the task, two toggles of
    importance with a fresh fetch after each leave the importance [high] if
    it was [high] and [normal] otherwise. So [high] and [normal] are
    restored, a task of [low] importance ends as [normal], and the status
    of the task is not touched. *)
Theorem toggle_importance_twice_restores_high_or_normal cf c n arrival1 arrival2 :
  answer_getClient cf = Fulfilled (Some c) ->
  (forall fields, answer_patch cf c (taskPath n) fields = Fulfilled ()) ->
  let n2 := toggleImportanceTwice cf c n arrival1 arrival2 in
  importance (task_entity n2)
    = Some (if strictEq (importance (task_entity n)) "high" then "high" else "normal") /\
  (importance (task_entity n) = Some "high" \/ importance (task_entity n) = Some "normal" ->
   importance (task_entity n2) = importance (task_entity n)) /\
  (importance (task_entity n) = Some "low" -> importance (task_entity n2) = Some "normal") /\
  status (task_entity n2) = status (task_entity n).
Proof.
  intros Hc Hok n2.
  assert (n2 = {| task_entity :=
                    applyPatch {| patch_status := None;
                                  patch_importance :=
                                    Some (if strictEq (importance (task_entity n)) "high"
                                          then "high" else "normal") |} (task_entity n);
                  task_parent := task_parent n |}) as Hn2.
  { subst n2. unfold toggleImportanceTwice.
    rewrite (freshSnapshot_after_importance_toggle cf c n arrival1 Hc Hok).
    rewrite (freshSnapshot_after_importance_toggle cf c _ arrival2 Hc) by exact Hok.
    unfold importanceFields, applyPatch. cbn.
    destruct (strictEq (importance (task_entity n)) "high"); reflexivity. }
  rewrite Hn2. cbn. split; [reflexivity|]. split; [|split; [|reflexivity]].
  - intros [-> | ->]; reflexivity.
  - intros ->. reflexivity.
Qed.

Lemma toggle_importance_twice_restores_high_or_normal_witness :
  answer_getClient sampleFactory = Fulfilled (Some sampleClient) /\
  (forall fields, answer_patch sampleFactory sampleClient (taskPath tea) fields
                  = Fulfilled ()) /\
  importance (task_entity tea) = Some "low" /\
  importance (task_entity (toggleImportanceTwice sampleFactory sampleClient tea [] []))
    = Some "normal".
Proof.
  split; [reflexivity|]. split; [intros fields; reflexivity|]. split; [reflexivity|].
  apply (toggle_importance_twice_restores_high_or_normal
           sampleFactory sampleClient tea [] [] eq_refl (fun _ => eq_refl)).
  reflexivity.
Defined.

(** X9. After a completion toggle that the service accepts, the tree item
    of the freshly fetched task has the other completion tag in its context
    value ([task-completed] for a task that was not completed and
    [task-notcompleted] for one that was) and the same importance tag;
    after an importance toggle it is the importance tag that changes. The
    label and the tooltip are the same in both cases. *)
Theorem accepted_toggle_flips_context_value loc cf c n arrival :
  answer_getClient cf = Fulfilled (Some c) ->
  (forall fields, answer_patch cf c (taskPath n) fields = Fulfilled ()) ->
  let star := if strictEq (importance (task_entity n)) "high"
              then "starred" else "notstarred" in
  let done := if strictEq (status (task_entity n)) "completed"
              then "completed" else "notcompleted" in
  let n1 := freshSnapshot cf c n (snd (changeCompletedState cf [n] arrival [])) in
  let n2 := freshSnapshot cf c n (snd (changeImportanceState cf [n] arrival [])) in
  contextValue (getTreeItem loc (TaskE n))
    = Some ("task-" +:+ done +:+ " task-" +:+ star) /\
  contextValue (getTreeItem loc (TaskE n1))
    = Some ("task-" +:+ (if strictEq (status (task_entity n)) "completed"
                         then "notcompleted" else "completed")
              +:+ " task-" +:+ star) /\
  contextValue (getTreeItem loc (TaskE n2))
    = Some ("task-" +:+ done +:+ " task-"
              +:+ (if strictEq (importance (task_entity n)) "high"
                   then "notstarred" else "starred")) /\
  item_label (getTreeItem loc (TaskE n1)) = item_label (getTreeItem loc (TaskE n)) /\
  item_label (getTreeItem loc (TaskE n2)) = item_label (getTreeItem loc (TaskE n)) /\
  tooltip (getTreeItem loc (TaskE n1)) = tooltip (getTreeItem loc (TaskE n)) /\
  tooltip (getTreeItem loc (TaskE n2)) = tooltip (getTreeItem loc (TaskE n)).
Proof.
  intros Hc Hok star done n1 n2. subst n1 n2.
  rewrite (freshSnapshot_after_toggle cf c n arrival Hc Hok).
  rewrite (freshSnapshot_after_importance_toggle cf c n arrival Hc Hok).
  subst star done. cbn.
  destruct (strictEq (status (task_entity n)) "completed");
    destruct (strictEq (importance (task_entity n)) "high"); repeat split.
Qed.

Lemma accepted_toggle_flips_context_value_witness :
  answer_getClient sampleFactory = Fulfilled (Some sampleClient) /\
  (forall fields, answer_patch sampleFactory sampleClient (taskPath milk) fields
                  = Fulfilled ()) /\
  contextValue (getTreeItem sampleLocale (TaskE milk))
    = Some "task-notcompleted task-notstarred" /\
  contextValue (getTreeItem sampleLocale
                  (TaskE (freshSnapshot sampleFactory sampleClient milk
                            (snd (changeCompletedState sampleFactory [milk] [] [])))))
    = Some "task-completed task-notstarred".
Proof.
  split; [reflexivity|]. split; [intros fields; reflexivity|].
  destruct (accepted_toggle_flips_context_value sampleLocale sampleFactory sampleClient
              milk [] eq_refl (fun _ => eq_refl)) as (H0 & H1 & _).
  split; [exact H0 | exact H1].
Defined.

(** ** Display *)

Lemma prefix_append s t : String.prefix s (s +:+ t) = true.
Proof.
  induction s as [|a s IH]; simpl; [destruct t; reflexivity|].
  destruct (Ascii.ascii_dec a a); [exact IH | congruence].
Qed.

(** X10. The two status nodes of a list are shown as [" In Progress "],
    expanded, and [" Completed "], collapsed; for every status node the one
    highlight covers the whole label, and the item has no command, context
    value or tooltip. *)
Theorem status_items_are_highlighted_whole loc cf c element tr (s : StatusNode) :
  answer_getClient cf = Fulfilled (Some c) ->
  (exists inP comp,
     fst (getChildren cf (Some (ListE element)) tr)
       = Fulfilled (Some [StatusE inP; StatusE comp]) /\
     labelText (item_label (getTreeItem loc (StatusE inP))) = " In Progress " /\
     collapsibleState (getTreeItem loc (StatusE inP)) = TreeItemCollapsibleState.Expanded /\
     labelText (item_label (getTreeItem loc (StatusE comp))) = " Completed " /\
     collapsibleState (getTreeItem loc (StatusE comp))
       = TreeItemCollapsibleState.Collapsed) /\
  (let item := getTreeItem loc (StatusE s) in
   labelText (item_label item) = " " +:+ statusTypeValue (statusType s) +:+ " " /\
   labelHighlights (item_label item) = [(0, String.length (labelText (item_label item)))] /\
   (forall h, In h (labelHighlights (item_label item)) ->
      span (labelText (item_label item)) h = labelText (item_label item)) /\
   item_command item = None /\ contextValue item = None /\ tooltip item = None).
Proof.
  intros Hc. split.
  - do 2 eexists. rewrite (getChildren_unfold_client _ _ _ _ Hc).
    split; [reflexivity|]. repeat split.
  - cbn. repeat split. intros h [<-|[]]. unfold span. cbn [fst snd].
    rewrite Nat.sub_0_r. apply substring_whole.
Qed.

Lemma status_items_are_highlighted_whole_witness :
  answer_getClient sampleFactory = Fulfilled (Some sampleClient) /\
  exists inP comp,
    fst (getChildren sampleFactory (Some (ListE groceries)) [])
      = Fulfilled (Some [StatusE inP; StatusE comp]) /\
    labelText (item_label (getTreeItem sampleLocale (StatusE inP))) = " In Progress " /\
    collapsibleState (getTreeItem sampleLocale (StatusE inP))
      = TreeItemCollapsibleState.Expanded /\
    labelText (item_label (getTreeItem sampleLocale (StatusE comp))) = " Completed " /\
    collapsibleState (getTreeItem sampleLocale (StatusE comp))
      = TreeItemCollapsibleState.Collapsed.
Proof.
  split; [reflexivity|].
  apply (proj1 (status_items_are_highlighted_whole sampleLocale sampleFactory sampleClient
                  groceries []
                  {| statusType := completed;
                     status_getChildren :=
                       getTasks sampleFactory sampleClient groceries true |}
                  eq_refl)).
Defined.

Lemma string_append_assoc s t u : (s +:+ t) +:+ u = s +:+ (t +:+ u).
Proof.
  induction s as [|a s IH]; [reflexivity|].
  change (String a ((s +:+ t) +:+ u) = String a (s +:+ (t +:+ u))).
  f_equal. exact IH.
Qed.

Lemma string_append_nil_r s : s +:+ "" = s.
Proof.
  induction s as [|a s IH]; [reflexivity|].
  change (String a (s +:+ "") = String a s). f_equal. exact IH.
Qed.

(** X11. The label of a task item always starts with the title. It is the
    title itself, without highlight, exactly when the task has no truthy
    due [dateTime]: no [dueDateTime], one without [dateTime], or one whose
    [dateTime] is the empty string. *)
Theorem task_label_extends_title_only_for_due_date loc element :
  let item := getTreeItem loc (TaskE element) in
  let text := labelText (item_label item) in
  let bare := orEmpty (title (task_entity element)) in
  String.prefix bare text = true /\
  (text = bare <-> whenTruthy (dueDateTime (task_entity element) ≫= dateTime) = None) /\
  (labelHighlights (item_label item) = []
   <-> whenTruthy (dueDateTime (task_entity element) ≫= dateTime) = None) /\
  (dueDateTime (task_entity element) = None -> text = bare) /\
  (forall d, dueDateTime (task_entity element) = Some d ->
             dateTime d = None \/ dateTime d = Some "" -> text = bare).
Proof.
  cbn zeta. cbn [getTreeItem item_label labelText labelHighlights]. unfold taskLabel.
  set (bare := orEmpty (title (task_entity element))).
  assert (forall d, whenTruthy (dueDateTime (task_entity element) ≫= dateTime) = Some d ->
                    (bare +:+ "  ") +:+ dueSuffix loc d <> bare) as Hlonger.
  { intros d _ Heq. apply (f_equal String.length) in Heq.
    rewrite !string_length_append in Heq. cbn in Heq. lia. }
  split; [|split; [|split; [|split]]].
  - destruct (whenTruthy _) as [d|]; cbn [label].
    + rewrite string_append_assoc. apply prefix_append.
    + rewrite <- (string_append_nil_r bare) at 2. apply prefix_append.
  - destruct (whenTruthy _) as [d|] eqn:Hd; cbn [label]; split; try congruence.
    intros Heq. exfalso. exact (Hlonger d eq_refl Heq).
  - destruct (whenTruthy _) as [d|]; cbn [highlights]; split; congruence.
  - intros ->. reflexivity.
  - intros d -> [Hd|Hd]; cbn; rewrite Hd; reflexivity.
Qed.

Lemma task_label_extends_title_only_for_due_date_witness :
  let blank := {| task_id := Some "T7"; title := Some "Oil"; status := Some "notStarted";
                  importance := Some "normal";
                  dueDateTime := Some {| dateTime := Some ""; timeZone := Some "UTC" |};
                  body := None; reminderDateTime := None |} in
  labelText (item_label (getTreeItem sampleLocale (TaskE (taskIn groceries blank)))) = "Oil".
Proof.
  intros blank.
  destruct (task_label_extends_title_only_for_due_date sampleLocale (taskIn groceries blank))
    as (_ & _ & _ & _ & Hblank).
  apply (Hblank {| dateTime := Some ""; timeZone := Some "UTC" |});
    [reflexivity | right; reflexivity].
Defined.

(** ** Command registrations *)


(** ** The task details web view: showing a task *)



(** ** The task details web view: editing *)

(** X14. [onkeydown] only reveals the two buttons and installs their
    handlers: it posts nothing and leaves the inputs, the current node and
    the reminder badge alone, and a second [onkeydown] changes nothing. A
    click on a button whose handler was never installed does nothing. *)
Theorem onkeydown_only_reveals_the_buttons v :
  onkeydown (onkeydown v) = onkeydown v /\
  posted (onkeydown v) = posted v /\
  dueDateInput_value (onkeydown v) = dueDateInput_value v /\
  setHidden (updateButton_hidden (panel v)) (panel (onkeydown v))
    = setHidden (updateButton_hidden (panel v)) (panel v) /\
  (updateButton_hidden (panel v) = true ->
   updateButton_hidden (panel (onkeydown v)) = false /\
   cancelButton_hidden (panel (onkeydown v)) = false /\
   updateButton_onclick (onkeydown v) = true /\
   cancelButton_onclick (onkeydown v) = true) /\
  (updateButton_onclick v = false -> clickUpdate v = (Fulfilled (), v)) /\
  (cancelButton_onclick v = false -> clickCancel v = (Fulfilled (), v)).
Proof.
  unfold onkeydown, clickUpdate, clickCancel.
  destruct (updateButton_hidden (panel v)) eqn:Hh; cbn; rewrite ?Hh;
    repeat split; try reflexivity; try discriminate; intros ->; reflexivity.
Qed.



(** X16. Show a task that has a body, press a key, edit title, body and
    due date, and click update: exactly one message is posted, an [update]
    with the edited title, body and date, the id of the task and the id of
    its list; both buttons are hidden. The current node now carries the
    edited title and body, so a later cancel restores the edited values,
    not those received. *)
Theorem update_posts_the_edited_task loc n b v t s d x :
  body (task_entity n) = Some b ->
  let edited :=
    changeDueDate d (inputBody s (inputTitle t (onkeydown (snd (onMessage loc n v))))) in
  let updated := snd (clickUpdate edited) in
  let cancelled := snd (clickCancel (inputTitle x (onkeydown updated))) in
  fst (clickUpdate edited) = Fulfilled () /\
  posted updated
    = posted v ++ [UpdateMessage
                     {| update_title := Some t;
                        update_note := Some s;
                        update_id := task_id (task_entity n);
                        update_listId := list_id (list_entity (task_parent n));
                        update_dueDate := d |}] /\
  updateButton_hidden (panel updated) = true /\
  cancelButton_hidden (panel updated) = true /\
  (currentNode (panel updated) ≫= fun cur => title (task_entity cur)) = Some t /\
  (currentNode (panel updated) ≫= fun cur => body (task_entity cur) ≫= content) = Some s /\
  title_value (panel cancelled) = Some t /\
  body_value (panel cancelled) = Some s /\
  posted cancelled = posted updated.
Proof.
  intros Hb. cbn zeta. unfold onMessage, changeTaskNode. rewrite Hb.
  cbn. rewrite Hb. cbn. repeat split.
Qed.

Lemma update_posts_the_edited_task_witness :
  body (task_entity salt) = Some {| content := Some "coarse"; contentType := Some "text" |} /\
  posted (snd (clickUpdate
    (changeDueDate "2026-02-01" (inputBody "fine" (inputTitle "Sugar"
       (onkeydown (snd (onMessage sampleLocale salt emptyView))))))))
  = posted emptyView
      ++ [UpdateMessage {| update_title := Some "Sugar"; update_note := Some "fine";
                           update_id := task_id (task_entity salt);
                           update_listId := list_id (list_entity (task_parent salt));
                           update_dueDate := "2026-02-01" |}].
Proof.
  split; [reflexivity|].
  apply (update_posts_the_edited_task sampleLocale salt _ emptyView "Sugar" "fine"
           "2026-02-01" "Pepper" eq_refl).
Defined.

(** X17. While no task has been received, neither button posts anything:
    a click on update or cancel, once a key press has installed the
    handlers, hides both buttons and then throws a [TypeError] when it
    reads the current node. *)
Theorem clicks_without_a_task_post_nothing v :
  currentNode (panel v) = None ->
  posted (snd (clickUpdate v)) = posted v /\
  posted (snd (clickCancel v)) = posted v /\
  (updateButton_onclick v = true ->
   clickUpdate v
   = (Rejected (TypeError "Cannot read properties of undefined (reading 'entity')"),
      withPanel (setHidden true (panel v)) v)) /\
  (cancelButton_onclick v = true ->
   clickCancel v
   = (Rejected (TypeError "Cannot read properties of undefined (reading 'entity')"),
      withPanel (setHidden true (panel v)) v)).
Proof.
  intros Hcur. unfold clickUpdate, clickCancel. cbn [setHidden currentNode]. rewrite Hcur.
  destruct (updateButton_onclick v), (cancelButton_onclick v);
    repeat split; try reflexivity; discriminate.
Qed.

Lemma clicks_without_a_task_post_nothing_witness :
  currentNode (panel (onkeydown emptyView)) = None /\
  fst (clickUpdate (onkeydown (withPanel (setHidden true emptyPanel) emptyView)))
  = Rejected (TypeError "Cannot read properties of undefined (reading 'entity')") /\
  posted (snd (clickUpdate (onkeydown (withPanel (setHidden true emptyPanel) emptyView)))) = [].
Proof.
  split; [reflexivity|].
  destruct (clicks_without_a_task_post_nothing
              (onkeydown (withPanel (setHidden true emptyPanel) emptyView)) eq_refl)
    as (Hposted & _ & Hupdate & _).
  split; [rewrite (Hupdate eq_refl); reflexivity | exact Hposted].
Defined.

(** ** The task details web view: start and switching tasks *)

(** X18. At its start the script posts [ready] exactly when there is no
    saved state or the saved task has a body. When the saved task has no
    body the script throws before it posts anything. *)
Theorem startup_posts_ready_unless_saved_task_lacks_body loc v :
  (posted (snd (startup loc v)) = posted v ++ [ReadyMessage]
   <-> forall n, state (panel v) = Some n -> body (task_entity n) <> None) /\
  (fst (startup loc v) = Fulfilled ()
   <-> forall n, state (panel v) = Some n -> body (task_entity n) <> None) /\
  (forall n, state (panel v) = Some n -> body (task_entity n) = None ->
     fst (startup loc v)
       = Rejected (TypeError "Cannot read properties of undefined (reading 'content')") /\
     posted (snd (startup loc v)) = posted v).
Proof.
  unfold startup, onMessage, changeTaskNode.
  destruct (state (panel v)) as [n|]; cbn.
  - destruct (body (task_entity n)) as [b|] eqn:Hb; cbn.
    + repeat split; intros; congruence.
    + repeat split.
      * intros Heq. exfalso. apply (f_equal length) in Heq.
        rewrite length_app in Heq. cbn in Heq. lia.
      * intros H. exfalso. apply (H n eq_refl). exact Hb.
      * discriminate.
      * intros H. exfalso. apply (H n eq_refl). exact Hb.
  - repeat split; intros; discriminate.
Qed.

Lemma startup_posts_ready_unless_saved_task_lacks_body_witness :
  let saved := withPanel (snd (changeTaskNode sampleLocale milk emptyPanel)) emptyView in
  state (panel saved) = Some milk /\
  body (task_entity milk) = None /\
  fst (startup sampleLocale saved)
    = Rejected (TypeError "Cannot read properties of undefined (reading 'content')") /\
  posted (snd (startup sampleLocale saved)) = [].
Proof.
  intros saved. split; [reflexivity|]. split; [reflexivity|].
  apply (proj2 (proj2 (startup_posts_ready_unless_saved_task_lacks_body sampleLocale saved))
           milk); reflexivity.
Defined.




